(** * Code-analysis engine: the command-line analyzer and the service analyzer

    A shallow embedding of [tools/analyze-code.js] (the single-shot command
    path) and of the analysis helpers of [services/code-processor/server.js]
    (the request/response path), together with the fragment of the JavaScript
    string and regular-expression library these two files call.  The
    validators and the formatters of the two paths
    ([tools/validate-code.js], [tools/format-code.js] and the helpers of the
    service) follow, with the entry points of the command-line tools. *)

From Stdlib Require Import NArith ZArith Ascii String DecimalString Bool Arith
  Lia Sorted List.
Import ListNotations.
Open Scope string_scope.
Open Scope list_scope.
Open Scope nat_scope.

(** ** JavaScript strings

    A JavaScript string is a sequence of 16-bit code units.  The analyzed
    text is arbitrary user input, so it is kept as a list of code units; the
    fixed ASCII literals of the program are written as Rocq strings and
    injected with [js]. *)

Definition jsstring := list N.

Definition js (s : string) : jsstring :=
  map N_of_ascii (list_ascii_of_string s).

(** The line feed, written ['\n'] in the source. *)
Definition LF : N := 10%N.

(** [\w] of a regular expression without the [u] and [i] flags. *)
Definition is_word (c : N) : bool :=
  ((48 <=? c) && (c <=? 57) || (65 <=? c) && (c <=? 90)
   || (97 <=? c) && (c <=? 122) || (c =? 95))%N.

(** [\s]: the WhiteSpace and LineTerminator code points. *)
Definition is_space (c : N) : bool :=
  (existsb (N.eqb c)
     [9; 10; 11; 12; 13; 32; 160; 5760; 8232; 8233; 8239; 8287; 12288; 65279]
   || (8192 <=? c) && (c <=? 8202))%N.

(** [s.startsWith(p)] on the remaining text, the test behind [includes]. *)
Fixpoint startsWith (p s : jsstring) : bool :=
  match p, s with
  | [], _ => true
  | _ :: _, [] => false
  | a :: p', b :: s' => (a =? b)%N && startsWith p' s'
  end.

(** [s.includes(p)]. *)
Fixpoint includes (s p : jsstring) : bool :=
  startsWith p s ||
  match s with
  | [] => false
  | _ :: s' => includes s' p
  end.

(** [s.split(sep)] for a separator of one code unit: the segments between
    the separators, always at least one segment. *)
Fixpoint String_split (sep : N) (s : jsstring) : list jsstring :=
  match s with
  | [] => [[]]
  | c :: s' =>
      if (c =? sep)%N then [] :: String_split sep s'
      else match String_split sep s' with
           | l :: ls => (c :: l) :: ls
           | [] => [[c]]
           end
  end.

(** [issues.push(x)]. *)
Definition push {A : Type} (l : list A) (x : A) : list A := l ++ [x].

(** ** Regular expressions

    The fragment the two files use: sequences of one-code-unit atoms
    (a literal, [\s], [\w], a bracket class), each possibly under a greedy
    [*], the assertions [\b], [^], [$], and a negative lookahead on one
    literal. *)

Inductive cclass : Type :=
| Lit (c : N)
| ClsSpace
| ClsWord
| ClsSet (items : list N).

Definition in_class (k : cclass) (c : N) : bool :=
  match k with
  | Lit d => (c =? d)%N
  | ClsSpace => is_space c
  | ClsWord => is_word c
  | ClsSet items => existsb (N.eqb c) items
  end.

Inductive node : Type :=
| One (k : cclass)
| Star (k : cclass)
| WordBoundary
| NotAhead (k : cclass)
| InputStart
| InputEnd.

Definition regex := list node.

Definition word_before (prev : option N) : bool :=
  match prev with Some p => is_word p | None => false end.

Definition word_after (s : jsstring) : bool :=
  match s with x :: _ => is_word x | [] => false end.

(** Backtracking match anchored at the current position; [prev] is the code
    unit just before it ([None] at the start of the input).  The result is
    the number of code units the match consumes.  A starred class takes as
    many code units as it can and gives them back one at a time while the
    rest of the pattern fails. *)
Fixpoint match_here (r : regex) (prev : option N) (s : jsstring) {struct r}
  : option nat :=
  match r with
  | [] => Some 0
  | One k :: r' =>
      match s with
      | x :: s' =>
          if in_class k x then option_map S (match_here r' (Some x) s')
          else None
      | [] => None
      end
  | Star k :: r' =>
      (fix star (prev : option N) (s : jsstring) {struct s} : option nat :=
         match s with
         | x :: s' =>
             if in_class k x then
               match star (Some x) s' with
               | Some n => Some (S n)
               | None => match_here r' prev s
               end
             else match_here r' prev s
         | [] => match_here r' prev s
         end) prev s
  | WordBoundary :: r' =>
      if xorb (word_before prev) (word_after s) then match_here r' prev s
      else None
  | NotAhead k :: r' =>
      match s with
      | x :: _ => if in_class k x then None else match_here r' prev s
      | [] => match_here r' prev s
      end
  | InputStart :: r' =>
      match prev with
      | None => match_here r' prev s
      | Some _ => None
      end
  | InputEnd :: r' =>
      match s with
      | [] => match_here r' prev s
      | _ :: _ => None
      end
  end.

(** The first match at or after the current position: its offset and its
    length. *)
Fixpoint search (r : regex) (prev : option N) (s : jsstring)
  : option (nat * nat) :=
  match match_here r prev s with
  | Some n => Some (0, n)
  | None =>
      match s with
      | [] => None
      | x :: s' =>
          match search r (Some x) s' with
          | Some (i, n) => Some (S i, n)
          | None => None
          end
      end
  end.

(** [s.match(re)] for a regular expression without the [g] flag: the matched
    text, or [None] for [null]. *)
Definition String_match (r : regex) (s : jsstring) : option jsstring :=
  match search r None s with
  | Some (i, n) => Some (firstn n (skipn i s))
  | None => None
  end.

Definition truthy {A : Type} (o : option A) : bool :=
  match o with Some _ => true | None => false end.

(** The successive matches of a [g] regular expression: after a match of
    [n] code units the scan resumes [n] code units later, or one later when
    the match is empty.  [skip] counts the code units still covered by the
    previous match. *)
Fixpoint match_all (r : regex) (prev : option N) (s : jsstring) (skip : nat)
  : list jsstring :=
  match s with
  | [] =>
      match skip, match_here r prev [] with
      | 0, Some _ => [[]]
      | _, _ => []
      end
  | x :: s' =>
      match skip with
      | S k => match_all r (Some x) s' k
      | 0 =>
          match match_here r prev s with
          | Some n => firstn n s :: match_all r (Some x) s' (pred n)
          | None => match_all r (Some x) s' 0
          end
      end
  end.

(** [s.match(re)] for a [g] regular expression: the array of all matches, or
    [None] for [null] when there is none. *)
Definition String_match_g (r : regex) (s : jsstring) : option (list jsstring) :=
  match match_all r None s 0 with
  | [] => None
  | m => Some m
  end.

(** The replacement text of [replace]: [$&] stands for the matched text and
    [$$] for a dollar sign.  The other [$] forms do not occur in this
    program and are copied as they are. *)
Fixpoint GetSubstitution (repl matched : jsstring) : jsstring :=
  match repl with
  | [] => []
  | c :: repl' =>
      if (c =? 36)%N then
        match repl' with
        | d :: repl'' =>
            if (d =? 38)%N then matched ++ GetSubstitution repl'' matched
            else if (d =? 36)%N then 36%N :: GetSubstitution repl'' matched
            else c :: GetSubstitution repl' matched
        | [] => [c]
        end
      else c :: GetSubstitution repl' matched
  end.

(** [s.replace(re, repl)] for a [g] regular expression. *)
Fixpoint replace_all (r : regex) (repl : jsstring) (prev : option N)
  (s : jsstring) (skip : nat) : jsstring :=
  match s with
  | [] =>
      match skip, match_here r prev [] with
      | 0, Some _ => GetSubstitution repl []
      | _, _ => []
      end
  | x :: s' =>
      match skip with
      | S k => replace_all r repl (Some x) s' k
      | 0 =>
          match match_here r prev s with
          | Some 0 =>
              GetSubstitution repl [] ++ x :: replace_all r repl (Some x) s' 0
          | Some (S n) =>
              GetSubstitution repl (firstn (S n) s)
                ++ replace_all r repl (Some x) s' n
          | None => x :: replace_all r repl (Some x) s' 0
          end
      end
  end.

Definition String_replace_g (r : regex) (repl s : jsstring) : jsstring :=
  replace_all r repl None s 0.

(** [s.split(re)]: [cur] holds, reversed, the segment being collected. *)
Fixpoint split_all (r : regex) (prev : option N) (s : jsstring) (skip : nat)
  (cur : jsstring) : list jsstring :=
  match s with
  | [] => [rev cur]
  | x :: s' =>
      match skip with
      | S k => split_all r (Some x) s' k cur
      | 0 =>
          match match_here r prev s with
          | Some (S n) => rev cur :: split_all r (Some x) s' n []
          | Some 0 =>
              match cur with
              | [] => split_all r (Some x) s' 0 [x]
              | _ :: _ => rev cur :: split_all r (Some x) s' 0 [x]
              end
          | None => split_all r (Some x) s' 0 (x :: cur)
          end
      end
  end.

Definition String_split_re (r : regex) (s : jsstring) : list jsstring :=
  match s with
  | [] => match match_here r None [] with Some _ => [] | None => [[]] end
  | _ :: _ => split_all r None s 0 []
  end.

(** ** The [RegExp] constructor

    [new RegExp(source)] reads a pattern text.  The reader below covers the
    fragment above and answers [None] on anything else: text the constructor
    rejects with a SyntaxError, and syntax outside the fragment. *)

Definition chr (a : ascii) : N := N_of_ascii a.

(** SyntaxCharacter: [^ $ \ . * + ? ( ) [ ] { } |]. *)
Definition is_syntax_char (c : N) : bool :=
  existsb (N.eqb c) (js "^$\.*+?()[]{}|").

Definition is_digit (c : N) : bool := ((48 <=? c) && (c <=? 57))%N.

Inductive pmode : Type :=
| PNormal
| PEscape
| PBrace
| PClass (items : list N)
| PClassEscape (items : list N)
| PGroup
| PGroupQ
| PLook
| PLookClose (k : cclass).

(** One code unit of pattern text.  [out] is the pattern read so far, last
    node first. *)
Definition RegExp_step (st : list node * pmode) (c : N)
  : option (list node * pmode) :=
  let (out, mode) := st in
  match mode with
  | PNormal | PBrace =>
      if (c =? chr "\")%N then Some (out, PEscape)
      else if (c =? chr "[")%N then Some (out, PClass [])
      else if (c =? chr "(")%N then Some (out, PGroup)
      else if (c =? chr "^")%N then Some (InputStart :: out, PNormal)
      else if (c =? chr "$")%N then Some (InputEnd :: out, PNormal)
      else if (c =? chr "*")%N then
        match out with
        | One k :: out' => Some (Star k :: out', PNormal)
        | _ => None
        end
      else if (c =? chr "+")%N then
        match out with
        | One k :: out' => Some (Star k :: One k :: out', PNormal)
        | _ => None
        end
      else if (c =? chr "{")%N then Some (One (Lit c) :: out, PBrace)
      else if (c =? chr ".")%N || (c =? chr "?")%N || (c =? chr ")")%N
              || (c =? chr "|")%N then None
      else
        match mode with
        | PBrace => if is_digit c then None else Some (One (Lit c) :: out, PNormal)
        | _ => Some (One (Lit c) :: out, PNormal)
        end
  | PEscape =>
      if (c =? chr "b")%N then Some (WordBoundary :: out, PNormal)
      else if (c =? chr "s")%N then Some (One ClsSpace :: out, PNormal)
      else if (c =? chr "w")%N then Some (One ClsWord :: out, PNormal)
      else if is_syntax_char c || (c =? chr "/")%N
           then Some (One (Lit c) :: out, PNormal)
      else None
  | PClass items =>
      if (c =? chr "]")%N then Some (One (ClsSet (rev items)) :: out, PNormal)
      else if (c =? chr "\")%N then Some (out, PClassEscape items)
      else if (c =? chr "-")%N then None
      else if (c =? chr "^")%N then
        match items with
        | [] => None
        | _ :: _ => Some (out, PClass (c :: items))
        end
      else Some (out, PClass (c :: items))
  | PClassEscape items =>
      if is_syntax_char c || (c =? chr "/")%N || (c =? chr "-")%N
      then Some (out, PClass (c :: items))
      else None
  | PGroup => if (c =? chr "?")%N then Some (out, PGroupQ) else None
  | PGroupQ => if (c =? chr "!")%N then Some (out, PLook) else None
  | PLook =>
      if is_syntax_char c then None else Some (out, PLookClose (Lit c))
  | PLookClose k =>
      if (c =? chr ")")%N then Some (NotAhead k :: out, PNormal) else None
  end.

Fixpoint RegExp_read (st : list node * pmode) (src : jsstring)
  : option (list node * pmode) :=
  match src with
  | [] => Some st
  | c :: src' =>
      match RegExp_step st c with
      | Some st' => RegExp_read st' src'
      | None => None
      end
  end.

Definition RegExp (src : jsstring) : option regex :=
  match RegExp_read ([], PNormal) src with
  | Some (out, PNormal) | Some (out, PBrace) => Some (rev out)
  | _ => None
  end.

(** The regular-expression literals of the two files, as the constructor
    reads their text (lemma [regex_literals]). *)

(** A run of literal code units. *)
Definition literal (text : jsstring) : regex :=
  map (fun c => One (Lit c)) text.

(** [\b] text [\b] *)
Definition word_regex (text : jsstring) : regex :=
  WordBoundary :: literal text ++ [WordBoundary].

(** [/innerHTML\s*=/] *)
Definition re_innerHTML_assign : regex :=
  literal (js "innerHTML") ++ [Star ClsSpace; One (Lit (chr "="))].

(** [/==(?!=)/] *)
Definition re_loose_equality : regex :=
  literal (js "==") ++ [NotAhead (Lit (chr "="))].

(** [/[.*+?^${}()|[\]\\]/g] *)
Definition re_metachar : regex := [One (ClsSet (js ".*+?^${}()|[]\"))].

(** [/^\w+$/] *)
Definition re_identifier : regex :=
  [InputStart; One ClsWord; Star ClsWord; InputEnd].

(** [/\s+/] *)
Definition re_spaces : regex := [One ClsSpace; Star ClsSpace].

(** [/function\s+\w+/g] *)
Definition re_function_decl : regex :=
  literal (js "function")
    ++ [One ClsSpace; Star ClsSpace; One ClsWord; Star ClsWord].

(** [/\w+\s*=\s*\(/g] *)
Definition re_assigned_paren : regex :=
  [One ClsWord; Star ClsWord; Star ClsSpace; One (Lit (chr "="));
   Star ClsSpace; One (Lit (chr "("))].

(** [/=>\s*{/g] *)
Definition re_arrow_body : regex :=
  [One (Lit (chr "=")); One (Lit (chr ">")); Star ClsSpace; One (Lit (chr "{"))].

(** ** A small error monad for calls that can throw *)

Definition bind {A B : Type} (o : option A) (f : A -> option B) : option B :=
  match o with
  | Some a => f a
  | None => None
  end.

Notation "x <- c ;; k" := (bind c (fun x => k))
  (at level 61, c at next level, right associativity).

(** [xs.forEach(f)] where the callback updates one local of the caller. *)
Fixpoint forEach {A S : Type} (xs : list A) (f : S -> A -> option S) (s : S)
  : option S :=
  match xs with
  | [] => Some s
  | x :: xs' => s' <- f s x ;; forEach xs' f s'
  end.

(** ** tools/analyze-code.js: the single-shot command path *)

Module AnalyzeCode.

Record Issue : Type := {
  severity : string;
  line : nat;
  message : string;
  category : string
}.

Record Metrics : Type := {
  lines : nat;
  characters : nat;
  words : nat;
  complexity : nat;
  complexity_rating : string;
  function_count : nat;
  average_line_length : nat
}.

Record Summary : Type := {
  total_issues : nat;
  high : nat;
  medium : nat;
  low : nat;
  info : nat
}.

Record Report : Type := {
  language : jsstring;
  metrics : Metrics;
  issues : list Issue;
  summary : Summary;
  analyzed_at : string
}.

Definition complexityKeywords : list jsstring :=
  [js "if"; js "else"; js "for"; js "while"; js "case"; js "&&"; js "||"].

(** The pattern built for one keyword: the keyword with its regular-expression
    metacharacters escaped, between two [\b] when it is an identifier. *)
Definition keywordPattern (keyword : jsstring) : option regex :=
  let escapedKeyword := String_replace_g re_metachar (js "\$&") keyword in
  if truthy (String_match re_identifier keyword)
  then RegExp (js "\b" ++ escapedKeyword ++ js "\b")
  else RegExp escapedKeyword.

Definition calculateComplexity (code : jsstring) : option nat :=
  forEach complexityKeywords
    (fun complexity keyword =>
       pattern <- keywordPattern keyword ;;
       let matches := String_match_g pattern code in
       match matches with
       | Some m => Some (complexity + length m)
       | None => Some complexity
       end)
    1.

(** The loop returns at the first line that includes the pattern; [i] is the
    index of the head of [lines]. *)
Fixpoint findLineNumber_from (lines : list jsstring) (pattern : jsstring)
  (i : nat) : nat :=
  match lines with
  | [] => 1
  | l :: lines' =>
      if includes l pattern then i + 1
      else findLineNumber_from lines' pattern (S i)
  end.

Definition findLineNumber (code pattern : jsstring) : nat :=
  let lines := String_split LF code in
  findLineNumber_from lines pattern 0.

Definition getComplexityRating (complexity : nat) : string :=
  if complexity <=? 5 then "simple"
  else if complexity <=? 10 then "moderate"
  else if complexity <=? 20 then "complex"
  else "very_complex".

(** [(s.match(re) || []).length] *)
Definition match_count (r : regex) (s : jsstring) : nat :=
  match String_match_g r s with
  | Some m => length m
  | None => 0
  end.

(** [issues.filter((i) => i.severity === sev).length] *)
Definition count_severity (sev : string) (issues : list Issue) : nat :=
  length (filter (fun i => String.eqb (severity i) sev) issues).

(** [Math.round(a / b)] for string and array lengths [a] and [b >= 1]: the
    quotient is exact enough in double precision for the rounding to be the
    one of the rational [a / b], halves going up. *)
Definition Math_round_div (a b : nat) : nat := (2 * a + b) / (2 * b).

(** [analyzeCode(code, language = 'javascript')]; [now] is the text that
    [new Date().toISOString()] returns at the call. *)
Definition analyzeCode (now : string) (code : jsstring)
  (language : option jsstring) : option Report :=
  let language :=
    match language with Some l => l | None => js "javascript" end in
  let lines := length (String_split LF code) in
  let chars := length code in
  let words :=
    length (filter (fun w => negb (Nat.eqb (length w) 0))
              (String_split_re re_spaces code)) in
  let issues := [] in
  let issues :=
    if includes code (js "eval(") then
      push issues
        {| severity := "high";
           line := findLineNumber code (js "eval(");
           message := "Dangerous use of eval() detected - security risk";
           category := "security" |}
    else issues in
  let issues :=
    if truthy (String_match re_innerHTML_assign code) then
      push issues
        {| severity := "medium";
           line := findLineNumber code (js "innerHTML");
           message :=
             "Direct innerHTML assignment can lead to XSS vulnerabilities";
           category := "security" |}
    else issues in
  let issues :=
    if includes code (js "var ") then
      push issues
        {| severity := "low";
           line := findLineNumber code (js "var ");
           message := "Use let or const instead of var for better scoping";
           category := "best-practices" |}
    else issues in
  let issues :=
    if includes code (js "console.log") then
      push issues
        {| severity := "info";
           line := findLineNumber code (js "console.log");
           message := "Remove console.log statements before production";
           category := "best-practices" |}
    else issues in
  let issues :=
    if truthy (String_match re_loose_equality code) then
      push issues
        {| severity := "low";
           line := findLineNumber code (js "==");
           message := "Use === instead of == for strict equality";
           category := "best-practices" |}
    else issues in
  complexity <- calculateComplexity code ;;
  let functionCount :=
    match_count re_function_decl code
    + match_count re_assigned_paren code
    + match_count re_arrow_body code in
  Some
    {| language := language;
       metrics :=
         {| lines := lines;
            characters := chars;
            words := words;
            complexity := complexity;
            complexity_rating := getComplexityRating complexity;
            function_count := functionCount;
            average_line_length := Math_round_div chars lines |};
       issues := issues;
       summary :=
         {| total_issues := length issues;
            high := count_severity "high" issues;
            medium := count_severity "medium" issues;
            low := count_severity "low" issues;
            info := count_severity "info" issues |};
       analyzed_at := now |}.

End AnalyzeCode.

(** ** services/code-processor/server.js: the request/response path *)

Module CodeProcessor.

Record Issue : Type := {
  severity : string;
  message : string;
  category : string
}.

Record Metrics : Type := {
  lines : nat;
  complexity : nat;
  rating : string
}.

Record Summary : Type := {
  total_issues : nat;
  high : nat
}.

Record Analysis : Type := {
  metrics : Metrics;
  issues : list Issue;
  summary : Summary
}.

Record Suggestion : Type := {
  type : string;
  suggestion_message : string
}.

Definition keywords : list jsstring :=
  [js "if"; js "else"; js "for"; js "while"; js "case"].

Definition calculateComplexity (code : jsstring) : option nat :=
  forEach keywords
    (fun complexity keyword =>
       pattern <- RegExp (js "\b" ++ keyword ++ js "\b") ;;
       let matches := String_match_g pattern code in
       match matches with
       | Some m => Some (complexity + length m)
       | None => Some complexity
       end)
    1.

Definition analyzeCode (code : jsstring) : option Analysis :=
  let lines := length (String_split LF code) in
  complexity <- calculateComplexity code ;;
  let issues := [] in
  let issues :=
    if includes code (js "eval(") then
      push issues
        {| severity := "high";
           message := "Use of eval() detected";
           category := "security" |}
    else issues in
  Some
    {| metrics :=
         {| lines := lines;
            complexity := complexity;
            rating := if complexity <=? 10 then "simple" else "complex" |};
       issues := issues;
       summary :=
         {| total_issues := length issues;
            high :=
              length (filter (fun i => String.eqb (severity i) "high") issues)
         |} |}.

(** The [forEach] over [analysis.issues], pushing onto [suggestions]. *)
Fixpoint suggest_issues (issues : list Issue) (suggestions : list Suggestion)
  : list Suggestion :=
  match issues with
  | [] => suggestions
  | issue :: issues' =>
      let suggestions :=
        if String.eqb (severity issue) "high" then
          push suggestions
            {| type := "security";
               suggestion_message :=
                 ("Fix " ++ category issue ++ " issue: " ++ message issue)%string |}
        else suggestions in
      suggest_issues issues' suggestions
  end.

Definition generateSuggestions (analysis : Analysis) : list Suggestion :=
  let suggestions := [] in
  let suggestions :=
    if 10 <? complexity (metrics analysis) then
      push suggestions
        {| type := "refactoring";
           suggestion_message :=
             "Consider breaking down complex functions into smaller ones" |}
    else suggestions in
  suggest_issues (issues analysis) suggestions.

End CodeProcessor.

(** ** The words of the specification

    The rule table, the occurrence counts and the line search as the
    specification describes them, to be compared with the code above. *)

Inductive rule : Type :=
| EvalCall
| InnerHTMLAssign
| VarDecl
| ConsoleLog
| LooseEquality.

(** The fixed evaluation order. *)
Definition rules : list rule :=
  [EvalCall; InnerHTMLAssign; VarDecl; ConsoleLog; LooseEquality].

Definition rule_index (r : rule) : nat :=
  match r with
  | EvalCall => 1
  | InnerHTMLAssign => 2
  | VarDecl => 3
  | ConsoleLog => 4
  | LooseEquality => 5
  end.

Definition rule_severity (r : rule) : string :=
  match r with
  | EvalCall => "high"
  | InnerHTMLAssign => "medium"
  | VarDecl => "low"
  | ConsoleLog => "info"
  | LooseEquality => "low"
  end.

Definition rule_category (r : rule) : string :=
  match r with
  | EvalCall | InnerHTMLAssign => "security"
  | VarDecl | ConsoleLog | LooseEquality => "best-practices"
  end.

Definition rule_message (r : rule) : string :=
  match r with
  | EvalCall => "Dangerous use of eval() detected - security risk"
  | InnerHTMLAssign =>
      "Direct innerHTML assignment can lead to XSS vulnerabilities"
  | VarDecl => "Use let or const instead of var for better scoping"
  | ConsoleLog => "Remove console.log statements before production"
  | LooseEquality => "Use === instead of == for strict equality"
  end.

(** The substring or pattern a rule matches, tested on a text. *)
Definition rule_detects (r : rule) (text : jsstring) : bool :=
  match r with
  | EvalCall => includes text (js "eval(")
  | InnerHTMLAssign => truthy (String_match re_innerHTML_assign text)
  | VarDecl => includes text (js "var ")
  | ConsoleLog => includes text (js "console.log")
  | LooseEquality => truthy (String_match re_loose_equality text)
  end.

(** The substring the analyzer looks for when it numbers the line. *)
Definition rule_needle (r : rule) : jsstring :=
  match r with
  | EvalCall => js "eval("
  | InnerHTMLAssign => js "innerHTML"
  | VarDecl => js "var "
  | ConsoleLog => js "console.log"
  | LooseEquality => js "=="
  end.

Definition rule_issue (r : rule) (code : jsstring) : AnalyzeCode.Issue :=
  {| AnalyzeCode.severity := rule_severity r;
     AnalyzeCode.line := AnalyzeCode.findLineNumber code (rule_needle r);
     AnalyzeCode.message := rule_message r;
     AnalyzeCode.category := rule_category r |}.

(** [n] is the 1-based index of the first line that satisfies [p]. *)
Definition first_line (p : jsstring -> bool) (lines : list jsstring) (n : nat)
  : Prop :=
  exists k l,
    n = S k /\ nth_error lines k = Some l /\ p l = true /\
    forall j l', j < k -> nth_error lines j = Some l' -> p l' = false.

(** The line the specification gives to an Issue of rule [r]: the first line
    that contains what the rule matches, and 1 when no line does. *)
Definition spec_line (r : rule) (code : jsstring) (n : nat) : Prop :=
  let lines := String_split LF code in
  first_line (rule_detects r) lines n \/
  ((forall l, In l lines -> rule_detects r l = false) /\ n = 1).

(** An identifier keyword occurs at the current position when the text
    starts with it and no word character touches it on either side. *)
Definition delimited_here (kw : jsstring) (prev : option N) (s : jsstring)
  : bool :=
  startsWith kw s && negb (word_before prev)
  && negb (word_after (skipn (length kw) s)).

Fixpoint count_word_from (kw : jsstring) (prev : option N) (s : jsstring)
  : nat :=
  match s with
  | [] => 0
  | x :: s' =>
      (if delimited_here kw prev s then 1 else 0)
      + count_word_from kw (Some x) s'
  end.

(** Occurrences of an identifier keyword, with word boundaries. *)
Definition count_word (kw : string) (code : jsstring) : nat :=
  count_word_from (js kw) None code.

(** Occurrences of an operator as a literal substring, read left to right
    without overlap. *)
Fixpoint count_literal_from (op : jsstring) (s : jsstring) (skip : nat)
  : nat :=
  match s with
  | [] => 0
  | _ :: s' =>
      match skip with
      | S k => count_literal_from op s' k
      | 0 =>
          if startsWith op s
          then 1 + count_literal_from op s' (pred (length op))
          else count_literal_from op s' 0
      end
  end.

Definition count_literal (op : string) (code : jsstring) : nat :=
  count_literal_from (js op) code 0.

(** The occurrences of the five identifier keywords. *)
Definition keyword_points (code : jsstring) : nat :=
  count_word "if" code + count_word "else" code + count_word "for" code
  + count_word "while" code + count_word "case" code.

(** The occurrences of the two operators. *)
Definition operator_points (code : jsstring) : nat :=
  count_literal "&&" code + count_literal "||" code.

Definition decision_points (code : jsstring) : nat :=
  keyword_points code + operator_points code.

(** What identifies an Issue across the two paths. *)
Definition cli_issue_key (i : AnalyzeCode.Issue) : string * string * string :=
  (AnalyzeCode.severity i, AnalyzeCode.category i, AnalyzeCode.message i).

Definition service_issue_key (i : CodeProcessor.Issue)
  : string * string * string :=
  (CodeProcessor.severity i, CodeProcessor.category i, CodeProcessor.message i).

(** The two paths agree on [code]: same complexity, same Issues. *)
Definition cross_caller_equivalent (code : jsstring) : Prop :=
  forall now language report analysis,
    AnalyzeCode.analyzeCode now code language = Some report ->
    CodeProcessor.analyzeCode code = Some analysis ->
    AnalyzeCode.complexity (AnalyzeCode.metrics report)
    = CodeProcessor.complexity (CodeProcessor.metrics analysis) /\
    map cli_issue_key (AnalyzeCode.issues report)
    = map service_issue_key (CodeProcessor.issues analysis).

(** Every Issue of the report on [code] carries the line the specification
    gives to its rule. *)
Definition lines_as_specified (code : jsstring) : Prop :=
  forall now language report i r,
    AnalyzeCode.analyzeCode now code language = Some report ->
    In i (AnalyzeCode.issues report) ->
    AnalyzeCode.message i = rule_message r ->
    spec_line r code (AnalyzeCode.line i).

Definition refactoring_suggestion : CodeProcessor.Suggestion :=
  {| CodeProcessor.type := "refactoring";
     CodeProcessor.suggestion_message :=
       "Consider breaking down complex functions into smaller ones" |}.

Definition security_fix (i : CodeProcessor.Issue) : CodeProcessor.Suggestion :=
  {| CodeProcessor.type := "security";
     CodeProcessor.suggestion_message :=
       ("Fix " ++ CodeProcessor.category i ++ " issue: "
          ++ CodeProcessor.message i)%string |}.

Definition is_high (i : CodeProcessor.Issue) : bool :=
  String.eqb (CodeProcessor.severity i) "high".

Definition count_type (t : string) (l : list CodeProcessor.Suggestion) : nat :=
  length (filter (fun s => String.eqb (CodeProcessor.type s) t) l).

(** Sample inputs. *)
Definition sample_now : string := "2024-01-01T00:00:00.000Z".

(** Two lines of text. *)
Definition two_lines (a b : string) : jsstring := js a ++ LF :: js b.

(** [TEST_CODE] of the repository's test script; 34 is the double quote. *)
Definition TEST_CODE : jsstring :=
  js "function test() { var x = 1; eval(" ++ 34%N :: js "test"
    ++ 34%N :: js "); return x; }".

(** ** The entry point of tools/analyze-code.js

    [process.argv] is a list of strings, the program's own arguments from
    index 2 on.  What [main] prints is kept as the value it serializes, with
    the status it passes to [process.exit]. *)

Inductive ProcessOutput (R : Type) : Type :=
| Stdout (result : R)
| StderrUsage (error usage example : string)
| StderrThrown.

Arguments Stdout {R} result.
Arguments StderrUsage {R} error usage example.
Arguments StderrThrown {R}.

(** The double quote, as a one-character text. *)
Definition quote : string := String (Ascii.ascii_of_nat 34) EmptyString.

(** [!v] for an argument of the command line: absent or empty. *)
Definition falsy (v : option jsstring) : bool :=
  match v with
  | None => true
  | Some [] => true
  | Some (_ :: _) => false
  end.

(** [v || d] *)
Definition or_else (v : option jsstring) (d : jsstring) : jsstring :=
  match v with
  | Some (c :: l) => c :: l
  | _ => d
  end.

Module AnalyzeCodeMain.

Definition main (now : string) (argv : list jsstring)
  : ProcessOutput AnalyzeCode.Report * nat :=
  let code := nth_error argv 2 in
  let language := or_else (nth_error argv 3) (js "javascript") in
  if falsy code then
    (StderrUsage "Code argument is required"
       "node analyze-code.js <code> [language]"
       ("node analyze-code.js " ++ quote ++ "function test() { return true; }"
          ++ quote ++ " javascript")%string,
     1)
  else
    match AnalyzeCode.analyzeCode now (or_else code []) (Some language) with
    | Some result => (Stdout result, 0)
    | None => (StderrThrown, 1)
    end.

End AnalyzeCodeMain.

(** ** tools/validate-code.js

    [new Function(code)] hands the text to the parser of the host; the
    parser is a parameter, answering the message of the SyntaxError it
    throws, or [None] when it accepts the text. *)

(** [/\{/g], [/\}/g], [/\(/g], [/\)/g], [/\[/g], [/\]/g] *)
Definition re_open_brace : regex := literal (js "{").
Definition re_close_brace : regex := literal (js "}").
Definition re_open_paren : regex := literal (js "(").
Definition re_close_paren : regex := literal (js ")").
Definition re_open_bracket : regex := literal (js "[").
Definition re_close_bracket : regex := literal (js "]").

(** A count inside a template literal. *)
Definition Number_toString (n : nat) : string :=
  NilZero.string_of_uint (Nat.to_uint n).

Module ValidateCode.

Record Message : Type := {
  type : string;
  message : string
}.

Record Summary : Type := {
  error_count : nat;
  warning_count : nat
}.

Record Validation : Type := {
  valid : bool;
  errors : list Message;
  warnings : list Message;
  summary : Summary;
  validated_at : string
}.

Section Parser.

Variable parse_error : jsstring -> option string.

Definition mismatch (what : string) (opening closing : nat) : Message :=
  {| type := "syntax";
     message :=
       ("Mismatched " ++ what ++ ": " ++ Number_toString opening
          ++ " opening, " ++ Number_toString closing ++ " closing")%string |}.

Definition validateCode (now : string) (code : jsstring) : Validation :=
  let errors := [] in
  let warnings := [] in
  match parse_error code with
  | None =>
      let openBraces := AnalyzeCode.match_count re_open_brace code in
      let closeBraces := AnalyzeCode.match_count re_close_brace code in
      let errors :=
        if negb (openBraces =? closeBraces)
        then push errors (mismatch "braces" openBraces closeBraces)
        else errors in
      let openParens := AnalyzeCode.match_count re_open_paren code in
      let closeParens := AnalyzeCode.match_count re_close_paren code in
      let errors :=
        if negb (openParens =? closeParens)
        then push errors (mismatch "parentheses" openParens closeParens)
        else errors in
      let openBrackets := AnalyzeCode.match_count re_open_bracket code in
      let closeBrackets := AnalyzeCode.match_count re_close_bracket code in
      let errors :=
        if negb (openBrackets =? closeBrackets)
        then push errors (mismatch "brackets" openBrackets closeBrackets)
        else errors in
      let warnings :=
        if includes code (js "var ") then
          push warnings
            {| type := "style";
               message :=
                 ("Using " ++ quote ++ "var" ++ quote
                    ++ " is discouraged, consider using " ++ quote ++ "let"
                    ++ quote ++ " or " ++ quote ++ "const" ++ quote)%string |}
        else warnings in
      let warnings :=
        if truthy (String_match re_loose_equality code) then
          push warnings
            {| type := "style";
               message :=
                 ("Using " ++ quote ++ "==" ++ quote
                    ++ " is discouraged, consider using " ++ quote ++ "==="
                    ++ quote ++ " for strict equality")%string |}
        else warnings in
      {| valid := length errors =? 0;
         errors := errors;
         warnings := warnings;
         summary :=
           {| error_count := length errors;
              warning_count := length warnings |};
         validated_at := now |}
  | Some error_message =>
      let errors :=
        push errors {| type := "syntax"; message := error_message |} in
      {| valid := false;
         errors := errors;
         warnings := warnings;
         summary :=
           {| error_count := length errors;
              warning_count := length warnings |};
         validated_at := now |}
  end.

Definition main (now : string) (argv : list jsstring)
  : ProcessOutput Validation * nat :=
  let code := nth_error argv 2 in
  if falsy code then
    (StderrUsage "Code argument is required"
       "node validate-code.js <code>"
       ("node validate-code.js " ++ quote
          ++ "function test() { return true; }" ++ quote)%string,
     1)
  else
    let result := validateCode now (or_else code []) in
    (Stdout result, if valid result then 0 else 1).

End Parser.

End ValidateCode.

(** ** services/code-processor/server.js: [validateCode] *)

Module CodeProcessorValidate.

Record Message : Type := {
  type : string;
  message : string
}.

Record Validation : Type := {
  valid : bool;
  errors : list Message
}.

Section Parser.

Variable parse_error : jsstring -> option string.

Definition validateCode (code : jsstring) : Validation :=
  let errors := [] in
  match parse_error code with
  | None =>
      let openBraces := AnalyzeCode.match_count re_open_brace code in
      let closeBraces := AnalyzeCode.match_count re_close_brace code in
      let errors :=
        if negb (openBraces =? closeBraces)
        then push errors {| type := "syntax"; message := "Mismatched braces" |}
        else errors in
      {| valid := length errors =? 0; errors := errors |}
  | Some error_message =>
      {| valid := false;
         errors := [{| type := "syntax"; message := error_message |}] |}
  end.

End Parser.

End CodeProcessorValidate.

(** ** Regular expressions with groups

    The formatters replace with patterns that capture: a second matcher for
    sequences of classes, possibly negated, each possibly under a greedy
    [*], the parentheses of numbered groups, and an alternative between two
    one-step items, the second being tried when the rest of the pattern
    fails after the first. *)

Inductive cset : Type :=
| OneOf (ks : list cclass)
| NoneOf (ks : list cclass).

Definition in_cset (cs : cset) (c : N) : bool :=
  match cs with
  | OneOf ks => existsb (fun k => in_class k c) ks
  | NoneOf ks => negb (existsb (fun k => in_class k c) ks)
  end.

Inductive alternative : Type :=
| AltChar (cs : cset)
| AltEnd.

Inductive gnode : Type :=
| GOne (cs : cset)
| GStar (cs : cset)
| GOpen (n : nat)
| GClose (n : nat)
| GAlt (a b : alternative).

Definition gregex := list gnode.

(** Where a parenthesis of group [group] was passed, as an offset from the
    start of the match. *)
Record mark : Type := {
  group : nat;
  opening : bool;
  offset : nat
}.

(** One alternative at the current position: the code units it consumes and
    the text left. *)
Definition alt_step (a : alternative) (s : jsstring)
  : option (nat * jsstring) :=
  match a, s with
  | AltChar cs, x :: s' => if in_cset cs x then Some (1, s') else None
  | AltChar _, [] => None
  | AltEnd, [] => Some (0, [])
  | AltEnd, _ :: _ => None
  end.

(** Backtracking match at the current position, [off] code units after the
    start of the match: the length of the match and the marks of its
    groups. *)
Fixpoint gmatch (r : gregex) (off : nat) (s : jsstring) {struct r}
  : option (nat * list mark) :=
  match r with
  | [] => Some (off, [])
  | GOne cs :: r' =>
      match s with
      | x :: s' => if in_cset cs x then gmatch r' (S off) s' else None
      | [] => None
      end
  | GStar cs :: r' =>
      (fix star (off : nat) (s : jsstring) {struct s}
         : option (nat * list mark) :=
         match s with
         | x :: s' =>
             if in_cset cs x then
               match star (S off) s' with
               | Some res => Some res
               | None => gmatch r' off s
               end
             else gmatch r' off s
         | [] => gmatch r' off s
         end) off s
  | GOpen n :: r' =>
      match gmatch r' off s with
      | Some (e, marks) =>
          Some (e, {| group := n; opening := true; offset := off |} :: marks)
      | None => None
      end
  | GClose n :: r' =>
      match gmatch r' off s with
      | Some (e, marks) =>
          Some (e, {| group := n; opening := false; offset := off |} :: marks)
      | None => None
      end
  | GAlt a b :: r' =>
      let second :=
        match alt_step b s with
        | Some (n, s') => gmatch r' (n + off) s'
        | None => None
        end in
      match alt_step a s with
      | Some (n, s') =>
          match gmatch r' (n + off) s' with
          | Some res => Some res
          | None => second
          end
      | None => second
      end
  end.

Fixpoint mark_offset (n : nat) (o : bool) (marks : list mark) : option nat :=
  match marks with
  | [] => None
  | m :: marks' =>
      if (group m =? n) && Bool.eqb (opening m) o then Some (offset m)
      else mark_offset n o marks'
  end.

(** The text group [n] captured, when the group took part in the match. *)
Definition group_text (n : nat) (marks : list mark) (matched : jsstring)
  : option jsstring :=
  match mark_offset n true marks, mark_offset n false marks with
  | Some a, Some b => Some (firstn (b - a) (skipn a matched))
  | _, _ => None
  end.

(** The replacement text with [$1] to [$9], [$&] and [$$]; a reference to a
    group the pattern does not have is copied as it is.  Two-digit
    references do not occur in this program. *)
Fixpoint GetSubstitution_groups (repl matched : jsstring) (marks : list mark)
  : jsstring :=
  match repl with
  | [] => []
  | c :: repl' =>
      if (c =? 36)%N then
        match repl' with
        | d :: repl'' =>
            if (d =? 38)%N
            then matched ++ GetSubstitution_groups repl'' matched marks
            else if (d =? 36)%N
            then 36%N :: GetSubstitution_groups repl'' matched marks
            else if ((49 <=? d) && (d <=? 57))%N then
              match group_text (N.to_nat (d - 48)) marks matched with
              | Some t => t ++ GetSubstitution_groups repl'' matched marks
              | None => c :: GetSubstitution_groups repl' matched marks
              end
            else c :: GetSubstitution_groups repl' matched marks
        | [] => [c]
        end
      else c :: GetSubstitution_groups repl' matched marks
  end.

(** [s.replace(re, repl)] for a [g] pattern with groups. *)
Fixpoint greplace_all (r : gregex) (repl : jsstring) (s : jsstring)
  (skip : nat) : jsstring :=
  match s with
  | [] =>
      match skip, gmatch r 0 [] with
      | 0, Some (_, marks) => GetSubstitution_groups repl [] marks
      | _, _ => []
      end
  | x :: s' =>
      match skip with
      | S k => greplace_all r repl s' k
      | 0 =>
          match gmatch r 0 s with
          | Some (0, marks) =>
              GetSubstitution_groups repl [] marks
                ++ x :: greplace_all r repl s' 0
          | Some (S n, marks) =>
              GetSubstitution_groups repl (firstn (S n) s) marks
                ++ greplace_all r repl s' n
          | None => x :: greplace_all r repl s' 0
          end
      end
  end.

Definition String_replace_groups (r : gregex) (repl s : jsstring) : jsstring :=
  greplace_all r repl s 0.

(** [s.trim()]: the white space and line terminators of [\s] are removed
    at both ends. *)
Fixpoint trimStart (s : jsstring) : jsstring :=
  match s with
  | [] => []
  | x :: s' => if is_space x then trimStart s' else s
  end.

Definition trimEnd (s : jsstring) : jsstring := rev (trimStart (rev s)).

Definition String_trim (s : jsstring) : jsstring := trimEnd (trimStart s).

(** [a === b] on strings. *)
Fixpoint String_equal (a b : jsstring) : bool :=
  match a, b with
  | [], [] => true
  | x :: a', y :: b' => (x =? y)%N && String_equal a' b'
  | _, _ => false
  end.

(** [[^;{}\s]] *)
Definition statement_end_class : cset :=
  NoneOf [Lit (chr ";"); Lit (chr "{"); Lit (chr "}"); ClsSpace].

Definition word_class : cset := OneOf [ClsWord].

(** ** services/code-processor/server.js: [formatCode] *)

Module CodeProcessorFormat.

(** The value of [options.addSemicolons]: absent, a boolean, or anything
    else. *)
Inductive option_value : Type :=
| Undefined
| Boolean (b : bool)
| OtherValue.

(** [v !== false] *)
Definition not_false (v : option_value) : bool :=
  match v with
  | Boolean false => false
  | _ => true
  end.

Record Formatting : Type := {
  original : jsstring;
  formatted : jsstring;
  changed : bool
}.

(** [/([^;{}\s])(\n|$)/g] *)
Definition re_line_end : gregex :=
  [GOpen 1; GOne statement_end_class; GClose 1;
   GOpen 2; GAlt (AltChar (OneOf [Lit LF])) AltEnd; GClose 2].

Definition formatCode (code : jsstring) (addSemicolons : option_value)
  : Formatting :=
  let formatted := String_trim code in
  let formatted :=
    if not_false addSemicolons
    then String_replace_groups re_line_end (js "$1;$2") formatted
    else formatted in
  {| original := code;
     formatted := formatted;
     changed := negb (String_equal code formatted) |}.

End CodeProcessorFormat.

(** ** tools/format-code.js *)

Module FormatCode.

Record Change : Type := {
  type : string;
  description : string
}.

Record Stats : Type := {
  original_length : nat;
  formatted_length : nat;
  difference : Z;
  lines_before : nat;
  lines_after : nat
}.

Record Formatting : Type := {
  original : jsstring;
  formatted : jsstring;
  language : jsstring;
  stats : Stats;
  changes : list Change;
  formatted_at : string
}.

(** [/([^;{}\s])\s*(\n|$)/g] *)
Definition re_statement_end : gregex :=
  [GOpen 1; GOne statement_end_class; GClose 1; GStar (OneOf [ClsSpace]);
   GOpen 2; GAlt (AltChar (OneOf [Lit LF])) AltEnd; GClose 2].

(** [/(\w+)o(\w+)/g] for an operator sign [o] *)
Definition re_operator (o : ascii) : gregex :=
  [GOpen 1; GOne word_class; GStar word_class; GClose 1;
   GOne (OneOf [Lit (chr o)]);
   GOpen 2; GOne word_class; GStar word_class; GClose 2].

(** [/\n\n+/g] *)
Definition re_blank_lines : regex :=
  [One (Lit LF); One (Lit LF); Star (Lit LF)].

Definition formatCode (now : string) (code : jsstring)
  (language : option jsstring) : Formatting :=
  let language :=
    match language with Some l => l | None => js "javascript" end in
  let formatted := code in
  let formatted :=
    String_replace_groups re_statement_end (js "$1;$2") formatted in
  let formatted :=
    String_replace_groups (re_operator "=") (js "$1 = $2") formatted in
  let formatted :=
    String_replace_groups (re_operator "+") (js "$1 + $2") formatted in
  let formatted :=
    String_replace_groups (re_operator "-") (js "$1 - $2") formatted in
  let formatted :=
    String_replace_groups (re_operator "*") (js "$1 * $2") formatted in
  let formatted :=
    String_replace_groups (re_operator "/") (js "$1 / $2") formatted in
  let formatted :=
    String_replace_g (literal (js "{")) (js " {" ++ LF :: js "  ") formatted in
  let formatted :=
    String_replace_g (literal (js "}")) (LF :: js "}") formatted in
  let formatted :=
    String_replace_g (literal (js ";")) (js ";" ++ [LF]) formatted in
  let formatted := String_replace_g re_blank_lines [LF] formatted in
  let formatted := String_trim formatted in
  let changes := [] in
  let changes :=
    if negb (String_equal formatted code) then
      push changes
        {| type := "formatting";
           description := "Code has been reformatted for consistency" |}
    else changes in
  {| original := code;
     formatted := formatted;
     language := language;
     stats :=
       {| original_length := length code;
          formatted_length := length formatted;
          difference := (Z.of_nat (length formatted) - Z.of_nat (length code))%Z;
          lines_before := length (String_split LF code);
          lines_after := length (String_split LF formatted) |};
     changes := changes;
     formatted_at := now |}.

Definition main (now : string) (argv : list jsstring)
  : ProcessOutput Formatting * nat :=
  let code := nth_error argv 2 in
  let language := or_else (nth_error argv 3) (js "javascript") in
  if falsy code then
    (StderrUsage "Code argument is required"
       "node format-code.js <code> [language]"
       ("node format-code.js " ++ quote ++ "const x=1;const y=2;" ++ quote
          ++ " javascript")%string,
     1)
  else (Stdout (formatCode now (or_else code []) (Some language)), 0).

End FormatCode.

(** [FORMATTED_CODE] of the repository's test script. *)
Definition FORMATTED_CODE : jsstring :=
  js "function   badly_formatted(){return 1}".

(** A code unit after which the service formatter puts a semicolon when it
    ends a line: anything but [;], [{], [}] and white space. *)
Definition needs_semicolon (c : N) : bool := in_cset statement_end_class c.



(** A text with no white space at either end. *)
Definition trimmed (s : jsstring) : Prop :=
  s = [] \/
  (exists x t, s = x :: t /\ is_space x = false) /\
  (exists y t, s = t ++ [y] /\ is_space y = false).

(** The number of line feeds a text starts with. *)
Fixpoint leading_LF (s : jsstring) : nat :=
  match s with
  | [] => 0
  | x :: s' => if (x =? LF)%N then S (leading_LF s') else 0
  end.

(** Every run of line feeds reduced to one line feed. *)
Fixpoint squeeze (s : jsstring) : jsstring :=
  match s with
  | [] => []
  | x :: s' =>
      if (x =? LF)%N then
        match s' with
        | [] => [LF]
        | y :: _ => if (y =? LF)%N then squeeze s' else LF :: squeeze s'
        end
      else x :: squeeze s'
  end.

(** Every [c] of the text is its last code unit or stands right before a
    line feed. *)
Fixpoint ends_line (c : N) (s : jsstring) : bool :=
  match s with
  | [] => true
  | x :: s' =>
      (if (x =? c)%N
       then match s' with [] => true | y :: _ => (y =? LF)%N end
       else true)
      && ends_line c s'
  end.

(** Every [c] of the text replaced by the text [repl]. *)
Definition expand (c : N) (repl : jsstring) (s : jsstring) : jsstring :=
  flat_map (fun x => if (x =? c)%N then repl else [x]) s.

(** The line holds [c] nowhere but, possibly, as its last code unit. *)
Definition only_last (c : N) (l : jsstring) : bool :=
  negb (existsb (N.eqb c) (removelast l)).

(** Every [c] of the text stands right after a line feed, or is its first
    code unit when [at_start] holds. *)
Fixpoint starts_line_from (c : N) (at_start : bool) (s : jsstring) : bool :=
  match s with
  | [] => true
  | x :: s' =>
      (if (x =? c)%N then at_start else true)
      && starts_line_from c (x =? LF)%N s'
  end.

(** The line holds [c] nowhere but, possibly, as its first code unit. *)
Definition only_first (c : N) (l : jsstring) : bool :=
  negb (existsb (N.eqb c) (tl l)).

(** The number of white-space code units a text starts with. *)
Fixpoint leading_spaces (s : jsstring) : nat :=
  match s with
  | [] => 0
  | x :: s' => if is_space x then S (leading_spaces s') else 0
  end.

(** The maximal runs of code units other than white space that begin in
    the text; [in_word] tells whether the text continues such a run. *)
Fixpoint count_runs (in_word : bool) (s : jsstring) : nat :=
  match s with
  | [] => 0
  | x :: s' =>
      if is_space x then count_runs false s'
      else (if in_word then 0 else 1) + count_runs true s'
  end.

(** The number of code units [a] in the text. *)
Definition occurrences (a : ascii) (code : jsstring) : nat :=
  count_occ N.eq_dec code (chr a).

(** As many opening as closing brackets of each kind, wherever they stand. *)
Definition braces_even (code : jsstring) : bool :=
  occurrences "{" code =? occurrences "}" code.

Definition parens_even (code : jsstring) : bool :=
  occurrences "(" code =? occurrences ")" code.

Definition brackets_even (code : jsstring) : bool :=
  occurrences "[" code =? occurrences "]" code.

(** * Properties *)

(** ** The regular-expression literals *)

Lemma regex_literals :
  RegExp (js "innerHTML\s*=") = Some re_innerHTML_assign /\
  RegExp (js "==(?!=)") = Some re_loose_equality /\
  RegExp (js "[.*+?^${}()|[\]\\]") = Some re_metachar /\
  RegExp (js "^\w+$") = Some re_identifier /\
  RegExp (js "\s+") = Some re_spaces /\
  RegExp (js "function\s+\w+") = Some re_function_decl /\
  RegExp (js "\w+\s*=\s*\(") = Some re_assigned_paren /\
  RegExp (js "=>\s*{") = Some re_arrow_body.
Proof. repeat split; vm_compute; reflexivity. Qed.

(** ** Sample runs *)

Example test_code_report :
  AnalyzeCode.analyzeCode sample_now TEST_CODE None
  = Some
      {| AnalyzeCode.language := js "javascript";
         AnalyzeCode.metrics :=
           {| AnalyzeCode.lines := 1;
              AnalyzeCode.characters := 54;
              AnalyzeCode.words := 11;
              AnalyzeCode.complexity := 1;
              AnalyzeCode.complexity_rating := "simple";
              AnalyzeCode.function_count := 1;
              AnalyzeCode.average_line_length := 54 |};
         AnalyzeCode.issues :=
           [{| AnalyzeCode.severity := "high";
               AnalyzeCode.line := 1;
               AnalyzeCode.message :=
                 "Dangerous use of eval() detected - security risk";
               AnalyzeCode.category := "security" |};
            {| AnalyzeCode.severity := "low";
               AnalyzeCode.line := 1;
               AnalyzeCode.message :=
                 "Use let or const instead of var for better scoping";
               AnalyzeCode.category := "best-practices" |}];
         AnalyzeCode.summary :=
           {| AnalyzeCode.total_issues := 2;
              AnalyzeCode.high := 1;
              AnalyzeCode.medium := 0;
              AnalyzeCode.low := 1;
              AnalyzeCode.info := 0 |};
         AnalyzeCode.analyzed_at := sample_now |}.
Proof. vm_compute. reflexivity. Qed.

Example test_code_analysis :
  CodeProcessor.analyzeCode TEST_CODE
  = Some
      {| CodeProcessor.metrics :=
           {| CodeProcessor.lines := 1;
              CodeProcessor.complexity := 1;
              CodeProcessor.rating := "simple" |};
         CodeProcessor.issues :=
           [{| CodeProcessor.severity := "high";
               CodeProcessor.message := "Use of eval() detected";
               CodeProcessor.category := "security" |}];
         CodeProcessor.summary :=
           {| CodeProcessor.total_issues := 1; CodeProcessor.high := 1 |} |}.
Proof. vm_compute. reflexivity. Qed.

(** Only the delimited [if] counts: not [ifx], [xif] or [if_]. *)
Example complexity_word_boundaries :
  AnalyzeCode.calculateComplexity (js "ifx xif if_ (if)") = Some 2.
Proof. vm_compute. reflexivity. Qed.

(** A run of three signs holds one match of the operator, a run of four
    holds two. *)
Example complexity_operator_runs :
  AnalyzeCode.calculateComplexity (js "a &&& b") = Some 2 /\
  AnalyzeCode.calculateComplexity (js "a |||| b") = Some 3 /\
  CodeProcessor.calculateComplexity (js "a |||| b") = Some 1.
Proof. repeat split; vm_compute; reflexivity. Qed.

Example words_and_functions :
  option_map (fun r => (AnalyzeCode.words (AnalyzeCode.metrics r),
                        AnalyzeCode.function_count (AnalyzeCode.metrics r)))
    (AnalyzeCode.analyzeCode sample_now
       (two_lines "  const f = (a) => { return a; };" "function g () {}  ")
       None)
  = Some (13, 3).
Proof. vm_compute. reflexivity. Qed.

Example line_of_second_line :
  AnalyzeCode.findLineNumber (two_lines "let a;" "var b;") (js "var ") = 2 /\
  AnalyzeCode.findLineNumber (two_lines "let a;" "var b;") (js "eval(") = 1.
Proof. split; reflexivity. Qed.

(** ** Substrings and lines *)

Lemma startsWith_includes (p s : jsstring) :
  startsWith p s = true -> includes s p = true.
Proof. intros H. destruct s; simpl; rewrite H; reflexivity. Qed.

Lemma includes_cons (c : N) (s p : jsstring) :
  includes s p = true -> includes (c :: s) p = true.
Proof. intros H. simpl. rewrite H. apply orb_true_r. Qed.

Lemma startsWith_firstn (p s : jsstring) :
  startsWith p s = true -> firstn (length p) s = p.
Proof.
  revert s. induction p as [|a p IH]; intros [|b s] H; simpl in *;
    try reflexivity; try discriminate.
  apply andb_true_iff in H. destruct H as [Hab Hp].
  apply N.eqb_eq in Hab. subst b. f_equal. apply IH, Hp.
Qed.

Lemma startsWith_length (p s : jsstring) :
  startsWith p s = true -> length p <= length s.
Proof.
  revert s. induction p as [|a p IH]; intros [|b s] H; simpl in *;
    try lia; try discriminate.
  apply andb_true_iff in H. destruct H as [_ Hp]. apply IH in Hp. lia.
Qed.

Lemma String_split_nonempty (sep : N) (s : jsstring) :
  String_split sep s <> [].
Proof.
  induction s as [|c s IH]; simpl; [discriminate|].
  destruct (c =? sep)%N; [discriminate|].
  destruct (String_split sep s); [contradiction|discriminate].
Qed.

(** A prefix without line feed lies on the first line. *)
Lemma startsWith_first_line (p s : jsstring) :
  ~ In LF p -> startsWith p s = true ->
  exists l ls, String_split LF s = l :: ls /\ startsWith p l = true.
Proof.
  revert s. induction p as [|a p IH]; intros s Hnl H.
  - destruct (String_split LF s) as [|l ls] eqn:E.
    + exfalso. revert E. apply String_split_nonempty.
    + exists l, ls. split; reflexivity.
  - destruct s as [|b s]; simpl in H; [discriminate|].
    apply andb_true_iff in H. destruct H as [Hab Hp].
    apply N.eqb_eq in Hab. subst b.
    destruct (IH s) as (l & ls & E & Hl); [intros Hin; apply Hnl; right; exact Hin|exact Hp|].
    simpl. destruct (a =? LF)%N eqn:Ea.
    + apply N.eqb_eq in Ea. exfalso. apply Hnl. left. exact Ea.
    + rewrite E. exists (a :: l), ls. split; [reflexivity|].
      simpl. rewrite N.eqb_refl. exact Hl.
Qed.

(** A substring without line feed lies within one line. *)
Lemma includes_some_line (p s : jsstring) :
  ~ In LF p -> includes s p = true ->
  exists l, In l (String_split LF s) /\ includes l p = true.
Proof.
  intros Hnl. induction s as [|c s IH]; intros H.
  - exists []. split; [left; reflexivity|exact H].
  - simpl in H. apply orb_true_iff in H. destruct H as [H|H].
    + destruct (startsWith_first_line _ _ Hnl H) as (l & ls & E & Hl).
      exists l. split; [rewrite E; left; reflexivity|].
      apply startsWith_includes, Hl.
    + destruct (IH H) as (l & Hin & Hl). simpl.
      destruct (c =? LF)%N.
      * exists l. split; [right; exact Hin|exact Hl].
      * destruct (String_split LF s) as [|l0 ls]; [contradiction|].
        destruct Hin as [<-|Hin].
        -- exists (c :: l0). split; [left; reflexivity|].
           apply includes_cons, Hl.
        -- exists l. split; [right; exact Hin|exact Hl].
Qed.

(** The line scan returns the first line that includes the pattern. *)
Lemma findLineNumber_from_first (lines : list jsstring) (p : jsstring) (i : nat) :
  (exists l, In l lines /\ includes l p = true) ->
  exists k l,
    AnalyzeCode.findLineNumber_from lines p i = i + S k /\
    nth_error lines k = Some l /\ includes l p = true /\
    forall j l', j < k -> nth_error lines j = Some l' -> includes l' p = false.
Proof.
  revert i. induction lines as [|l0 lines IH]; intros i (l & Hin & Hl).
  - contradiction.
  - simpl. destruct (includes l0 p) eqn:E0.
    + exists 0, l0. split; [lia|]. split; [reflexivity|]. split; [exact E0|].
      intros j l' Hj; lia.
    + destruct Hin as [->|Hin]; [congruence|].
      destruct (IH (S i)) as (k & l1 & Hk & Hn & Hp & Hbefore);
        [exists l; split; assumption|].
      exists (S k), l1. split; [lia|]. split; [exact Hn|]. split; [exact Hp|].
      intros [|j] l' Hj Hj'; simpl in Hj'.
      * congruence.
      * apply (Hbefore j); [lia|exact Hj'].
Qed.

(** The fallback: a pattern that no line includes is given line 1. *)
Lemma findLineNumber_from_fallback (lines : list jsstring) (p : jsstring)
  (i : nat) :
  (forall l, In l lines -> includes l p = false) ->
  AnalyzeCode.findLineNumber_from lines p i = 1.
Proof.
  revert i. induction lines as [|l0 lines IH]; intros i H.
  - reflexivity.
  - simpl. rewrite (H l0 (or_introl eq_refl)).
    apply IH. intros l Hl. apply H. right. exact Hl.
Qed.

Lemma findLineNumber_fallback (code p : jsstring) :
  (forall l, In l (String_split LF code) -> includes l p = false) ->
  AnalyzeCode.findLineNumber code p = 1.
Proof. apply findLineNumber_from_fallback. Qed.

Lemma findLineNumber_from_bounds (lines : list jsstring) (p : jsstring) (i : nat) :
  AnalyzeCode.findLineNumber_from lines p i = 1 \/
  (i + 1 <= AnalyzeCode.findLineNumber_from lines p i <= i + length lines).
Proof.
  revert i. induction lines as [|l0 lines IH]; intros i; simpl.
  - left. reflexivity.
  - destruct (includes l0 p).
    + right. lia.
    + destruct (IH (S i)) as [H|H]; [left; exact H|right; lia].
Qed.

Lemma findLineNumber_bounds (code p : jsstring) :
  1 <= AnalyzeCode.findLineNumber code p <= length (String_split LF code).
Proof.
  unfold AnalyzeCode.findLineNumber.
  pose proof (String_split_nonempty LF code) as Hne.
  destruct (findLineNumber_from_bounds (String_split LF code) p 0) as [H|H].
  - rewrite H. destruct (String_split LF code); [contradiction|simpl; lia].
  - simpl in H. lia.
Qed.

(** ** Matching literal text *)

Lemma last_cons_default {A : Type} (a d : A) (l : list A) :
  last (a :: l) d = last l a.
Proof.
  revert a d. induction l as [|b l IH]; intros a d; [reflexivity|].
  change (last (a :: b :: l) d) with (last (b :: l) d).
  rewrite (IH b d), (IH b a). reflexivity.
Qed.

(** A run of literals matches exactly the texts that start with it; the rest
    of the pattern continues behind it. *)
Lemma match_here_literal (kw : jsstring) (r : regex) (prev : option N)
  (s : jsstring) :
  match_here (literal kw ++ r) prev s =
  if startsWith kw s
  then option_map (Nat.add (length kw))
         (match_here r (last (map Some kw) prev) (skipn (length kw) s))
  else None.
Proof.
  revert prev s. induction kw as [|a kw IH]; intros prev s.
  - simpl. destruct (match_here r prev s); reflexivity.
  - destruct s as [|x s]; [reflexivity|].
    change (literal (a :: kw) ++ r) with (One (Lit a) :: (literal kw ++ r)).
    cbn [match_here in_class startsWith].
    rewrite (N.eqb_sym a x). destruct (x =? a)%N eqn:E; [|reflexivity].
    apply N.eqb_eq in E. subst x. rewrite IH. cbn [andb].
    destruct (startsWith kw s); [|reflexivity].
    change (map Some (a :: kw)) with (Some a :: map Some kw).
    rewrite last_cons_default. cbn [length skipn].
    destruct (match_here r _ _); reflexivity.
Qed.

Lemma match_here_literal_only (kw : jsstring) (prev : option N) (s : jsstring) :
  match_here (literal kw) prev s =
  if startsWith kw s then Some (length kw) else None.
Proof.
  rewrite <- (app_nil_r (literal kw)), match_here_literal.
  destruct (startsWith kw s); [|reflexivity].
  simpl. rewrite Nat.add_0_r. reflexivity.
Qed.

(** A pattern that begins with literal text is found only in texts that
    include this text. *)
Lemma search_literal_includes (kw : jsstring) (r : regex) (prev : option N)
  (s : jsstring) :
  search (literal kw ++ r) prev s <> None -> includes s kw = true.
Proof.
  revert prev. induction s as [|x s IH]; intros prev H.
  - simpl in H. rewrite match_here_literal in H.
    simpl. destruct (startsWith kw []); [reflexivity|]. congruence.
  - cbn [search] in H. rewrite match_here_literal in H.
    cbn [includes]. destruct (startsWith kw (x :: s)); [reflexivity|].
    simpl. apply (IH (Some x)). intros E. rewrite E in H. congruence.
Qed.

Lemma search_cons (r : regex) (prev : option N) (x : N) (s : jsstring) :
  search r (Some x) s <> None -> search r prev (x :: s) <> None.
Proof.
  intros H. cbn [search]. destruct (match_here r prev (x :: s)); [discriminate|].
  destruct (search r (Some x) s) as [[i n]|]; [discriminate|congruence].
Qed.

Lemma search_here (r : regex) (prev : option N) (s : jsstring) :
  match_here r prev s <> None -> search r prev s <> None.
Proof.
  intros H. destruct s; cbn [search]; destruct (match_here r prev _);
    try discriminate; congruence.
Qed.

Lemma truthy_String_match (r : regex) (s : jsstring) :
  truthy (String_match r s) = true <-> search r None s <> None.
Proof.
  unfold String_match. destruct (search r None s) as [[i n]|]; simpl; split;
    intros H; try discriminate; try reflexivity; congruence.
Qed.

(** The loose-equality pattern matches every text that includes [==]: the
    lookahead only moves the match to the end of a run of equal signs. *)
Lemma loose_equality_match (prev : option N) (s : jsstring) :
  includes s (js "==") = true -> search re_loose_equality prev s <> None.
Proof.
  revert prev. induction s as [|x s IH]; intros prev H.
  - discriminate.
  - cbn [includes] in H. destruct (includes s (js "==")) eqn:Etail.
    + apply search_cons, IH. reflexivity.
    + rewrite orb_false_r in H. apply search_here.
      unfold re_loose_equality. rewrite match_here_literal, H.
      change (length (js "==")) with 2.
      destruct s as [|y s]; [discriminate|].
      cbn [skipn]. destruct s as [|z s]; [discriminate|].
      cbn [match_here in_class option_map].
      destruct (z =? chr "=")%N eqn:Ez; [|discriminate].
      exfalso. apply N.eqb_eq in Ez. subst z.
      simpl in H. apply andb_true_iff in H. destruct H as [_ H].
      rewrite andb_true_r in H.
      simpl in Etail. rewrite H in Etail. discriminate.
Qed.

Lemma loose_equality_includes (text : jsstring) :
  truthy (String_match re_loose_equality text) = includes text (js "==").
Proof.
  destruct (includes text (js "==")) eqn:E.
  - apply truthy_String_match, loose_equality_match, E.
  - destruct (truthy (String_match re_loose_equality text)) eqn:T; [|reflexivity].
    apply truthy_String_match in T. apply search_literal_includes in T.
    congruence.
Qed.

Lemma innerHTML_assign_includes (text : jsstring) :
  truthy (String_match re_innerHTML_assign text) = true ->
  includes text (js "innerHTML") = true.
Proof.
  intros T. apply truthy_String_match in T.
  apply search_literal_includes in T. exact T.
Qed.

(** ** Counting the matches of a keyword pattern *)

Lemma match_all_literal (op : jsstring) (prev : option N) (s : jsstring)
  (skip : nat) :
  op <> [] ->
  length (match_all (literal op) prev s skip) = count_literal_from op s skip.
Proof.
  intros Hop. revert prev skip. induction s as [|x s IH]; intros prev skip.
  - cbn [match_all count_literal_from]. rewrite match_here_literal_only.
    destruct op; [contradiction|]. destruct skip; reflexivity.
  - cbn [match_all count_literal_from]. destruct skip as [|k]; [|apply IH].
    rewrite match_here_literal_only.
    destruct (startsWith op (x :: s)); [|apply IH].
    cbn [length]. rewrite IH. reflexivity.
Qed.

Lemma startsWith_word_after (kw s : jsstring) :
  kw <> [] -> forallb is_word kw = true -> startsWith kw s = true ->
  word_after s = true.
Proof.
  intros Hne Hw H. destruct kw as [|a kw]; [contradiction|].
  destruct s as [|b s]; [discriminate|]. simpl in *.
  apply andb_true_iff in H. destruct H as [Hab _].
  apply N.eqb_eq in Hab. subst b.
  apply andb_true_iff in Hw. apply Hw.
Qed.

Lemma word_before_last (kw : jsstring) (prev : option N) :
  kw <> [] -> forallb is_word kw = true ->
  word_before (last (map Some kw) prev) = true.
Proof.
  revert prev. induction kw as [|a kw IH]; intros prev Hne Hw; [contradiction|].
  change (map Some (a :: kw)) with (Some a :: map Some kw).
  rewrite last_cons_default. simpl in Hw.
  apply andb_true_iff in Hw. destruct Hw as [Ha Hw].
  destruct kw as [|b kw]; [exact Ha|].
  apply IH; [discriminate|exact Hw].
Qed.

(** Between two [\b], an identifier matches where it stands delimited. *)
Lemma match_here_word (kw : jsstring) (prev : option N) (s : jsstring) :
  kw <> [] -> forallb is_word kw = true ->
  match_here (word_regex kw) prev s =
  if delimited_here kw prev s then Some (length kw) else None.
Proof.
  intros Hne Hw. unfold word_regex, delimited_here.
  cbn [match_here]. rewrite match_here_literal.
  destruct (startsWith kw s) eqn:Es.
  - rewrite (startsWith_word_after kw s Hne Hw Es).
    cbn [match_here]. rewrite (word_before_last kw prev Hne Hw).
    destruct (word_before prev); [reflexivity|].
    destruct (word_after (skipn (length kw) s)); [reflexivity|].
    simpl. rewrite Nat.add_0_r. reflexivity.
  - destruct (xorb _ _); reflexivity.
Qed.

(** The code units a match covers are word characters preceded by a word
    character, so no delimited occurrence starts among them: the scan of the
    [g] pattern, which skips them, finds every delimited occurrence. *)
Lemma match_all_word (kw : jsstring) (prev : option N) (s : jsstring)
  (skip : nat) :
  kw <> [] -> forallb is_word kw = true ->
  (skip <> 0 -> word_before prev = true) ->
  forallb is_word (firstn skip s) = true ->
  skip <= length s ->
  length (match_all (word_regex kw) prev s skip) = count_word_from kw prev s.
Proof.
  intros Hne Hw. revert prev skip.
  induction s as [|x s IH]; intros prev skip Hprev Hin Hlen.
  - cbn [match_all count_word_from]. rewrite (match_here_word kw _ _ Hne Hw).
    destruct kw; [contradiction|]. destruct skip; reflexivity.
  - cbn [match_all count_word_from]. destruct skip as [|k].
    + rewrite (match_here_word kw _ _ Hne Hw).
      destruct (delimited_here kw prev (x :: s)) eqn:Ed.
      * unfold delimited_here in Ed.
        apply andb_true_iff in Ed. destruct Ed as [Ed _].
        apply andb_true_iff in Ed. destruct Ed as [Es _].
        pose proof (startsWith_firstn _ _ Es) as Hf.
        pose proof (startsWith_length _ _ Es) as Hl.
        destruct kw as [|a kw]; [contradiction|].
        cbn [length firstn] in Hf, Hl. injection Hf as Hx Hf. subst x.
        cbn [forallb] in Hw. apply andb_true_iff in Hw. destruct Hw as [Ha Hkw].
        cbn [length Nat.add]. f_equal. apply IH.
        -- intros _. exact Ha.
        -- cbn [length pred]. rewrite Hf. exact Hkw.
        -- cbn [length pred]. cbn [length] in Hl. lia.
      * apply IH; [intros C; contradiction|reflexivity|lia].
    + cbn [firstn forallb] in Hin. apply andb_true_iff in Hin.
      destruct Hin as [Hx Hin].
      unfold delimited_here at 1. rewrite Hprev by discriminate.
      rewrite andb_false_r. cbn [andb Nat.add].
      apply IH; [intros _; exact Hx|exact Hin|cbn [length] in Hlen; lia].
Qed.

Lemma keywordPattern_table :
  AnalyzeCode.keywordPattern (js "if") = Some (word_regex (js "if")) /\
  AnalyzeCode.keywordPattern (js "else") = Some (word_regex (js "else")) /\
  AnalyzeCode.keywordPattern (js "for") = Some (word_regex (js "for")) /\
  AnalyzeCode.keywordPattern (js "while") = Some (word_regex (js "while")) /\
  AnalyzeCode.keywordPattern (js "case") = Some (word_regex (js "case")) /\
  AnalyzeCode.keywordPattern (js "&&") = Some (literal (js "&&")) /\
  AnalyzeCode.keywordPattern (js "||") = Some (literal (js "||")).
Proof. repeat split; vm_compute; reflexivity. Qed.

Lemma String_match_g_length (r : regex) (code : jsstring) (c : nat) :
  match String_match_g r code with
  | Some m => Some (c + length m)
  | None => Some c
  end = Some (c + length (match_all r None code 0)).
Proof.
  unfold String_match_g. destruct (match_all r None code 0); [|reflexivity].
  simpl. rewrite Nat.add_0_r. reflexivity.
Qed.

Lemma word_pattern_count (kw : string) (code : jsstring) :
  js kw <> [] -> forallb is_word (js kw) = true ->
  length (match_all (word_regex (js kw)) None code 0) = count_word kw code.
Proof.
  intros Hne Hw. unfold count_word.
  apply match_all_word; [exact Hne|exact Hw|intros C; contradiction|reflexivity|lia].
Qed.

Lemma literal_pattern_count (op : string) (code : jsstring) :
  js op <> [] ->
  length (match_all (literal (js op)) None code 0) = count_literal op code.
Proof. intros Hne. apply match_all_literal, Hne. Qed.

Lemma cli_calculateComplexity_eq (code : jsstring) :
  AnalyzeCode.calculateComplexity code = Some (1 + decision_points code).
Proof.
  destruct keywordPattern_table as (K1 & K2 & K3 & K4 & K5 & K6 & K7).
  unfold AnalyzeCode.calculateComplexity, AnalyzeCode.complexityKeywords.
  cbn [forEach].
  rewrite K1; cbn [bind]; rewrite String_match_g_length; cbn [bind].
  rewrite K2; cbn [bind]; rewrite String_match_g_length; cbn [bind].
  rewrite K3; cbn [bind]; rewrite String_match_g_length; cbn [bind].
  rewrite K4; cbn [bind]; rewrite String_match_g_length; cbn [bind].
  rewrite K5; cbn [bind]; rewrite String_match_g_length; cbn [bind].
  rewrite K6; cbn [bind]; rewrite String_match_g_length; cbn [bind].
  rewrite K7; cbn [bind]; rewrite String_match_g_length.
  rewrite !word_pattern_count by (try discriminate; reflexivity).
  rewrite !literal_pattern_count by discriminate.
  unfold decision_points, keyword_points, operator_points.
  cbn [bind]. f_equal; lia.
Qed.

Lemma service_keyword_table :
  RegExp (js "\b" ++ js "if" ++ js "\b") = Some (word_regex (js "if")) /\
  RegExp (js "\b" ++ js "else" ++ js "\b") = Some (word_regex (js "else")) /\
  RegExp (js "\b" ++ js "for" ++ js "\b") = Some (word_regex (js "for")) /\
  RegExp (js "\b" ++ js "while" ++ js "\b") = Some (word_regex (js "while")) /\
  RegExp (js "\b" ++ js "case" ++ js "\b") = Some (word_regex (js "case")).
Proof. repeat split; vm_compute; reflexivity. Qed.

Lemma service_calculateComplexity_eq (code : jsstring) :
  CodeProcessor.calculateComplexity code = Some (1 + keyword_points code).
Proof.
  destruct service_keyword_table as (K1 & K2 & K3 & K4 & K5).
  unfold CodeProcessor.calculateComplexity, CodeProcessor.keywords.
  cbn [forEach].
  rewrite K1; cbn [bind]; rewrite String_match_g_length; cbn [bind].
  rewrite K2; cbn [bind]; rewrite String_match_g_length; cbn [bind].
  rewrite K3; cbn [bind]; rewrite String_match_g_length; cbn [bind].
  rewrite K4; cbn [bind]; rewrite String_match_g_length; cbn [bind].
  rewrite K5; cbn [bind]; rewrite String_match_g_length.
  rewrite !word_pattern_count by (try discriminate; reflexivity).
  unfold keyword_points. cbn [bind]. f_equal; lia.
Qed.

(** ** The report of the command path *)

(** The inline rule tests of [analyzeCode] amount to the rule table read in
    its fixed order. *)
Lemma cli_report (now : string) (code : jsstring) (language : option jsstring) :
  exists report,
    AnalyzeCode.analyzeCode now code language = Some report /\
    AnalyzeCode.issues report
    = map (fun r => rule_issue r code)
        (filter (fun r => rule_detects r code) rules) /\
    AnalyzeCode.lines (AnalyzeCode.metrics report)
    = length (String_split LF code) /\
    AnalyzeCode.complexity (AnalyzeCode.metrics report)
    = 1 + decision_points code /\
    AnalyzeCode.complexity_rating (AnalyzeCode.metrics report)
    = AnalyzeCode.getComplexityRating (1 + decision_points code) /\
    AnalyzeCode.summary report
    = {| AnalyzeCode.total_issues := length (AnalyzeCode.issues report);
         AnalyzeCode.high :=
           AnalyzeCode.count_severity "high" (AnalyzeCode.issues report);
         AnalyzeCode.medium :=
           AnalyzeCode.count_severity "medium" (AnalyzeCode.issues report);
         AnalyzeCode.low :=
           AnalyzeCode.count_severity "low" (AnalyzeCode.issues report);
         AnalyzeCode.info :=
           AnalyzeCode.count_severity "info" (AnalyzeCode.issues report) |}.
Proof.
  unfold AnalyzeCode.analyzeCode.
  rewrite cli_calculateComplexity_eq. cbn [bind].
  eexists. split; [reflexivity|].
  cbn [AnalyzeCode.issues AnalyzeCode.metrics AnalyzeCode.lines
       AnalyzeCode.complexity AnalyzeCode.complexity_rating
       AnalyzeCode.summary].
  split; [|repeat split].
  unfold rules. cbn [filter rule_detects]. unfold push.
  destruct (includes code (js "eval("));
    destruct (truthy (String_match re_innerHTML_assign code));
    destruct (includes code (js "var "));
    destruct (includes code (js "console.log"));
    destruct (truthy (String_match re_loose_equality code));
    reflexivity.
Qed.

Lemma rule_severity_cases (r : rule) :
  rule_severity r = "high" \/ rule_severity r = "medium" \/
  rule_severity r = "low" \/ rule_severity r = "info".
Proof. destruct r; simpl; auto. Qed.

(** Issues whose severity is one of the four are partitioned by the four
    filters of the summary. *)
Lemma count_severity_partition (l : list AnalyzeCode.Issue) :
  Forall (fun i =>
            AnalyzeCode.severity i = "high" \/
            AnalyzeCode.severity i = "medium" \/
            AnalyzeCode.severity i = "low" \/
            AnalyzeCode.severity i = "info") l ->
  AnalyzeCode.count_severity "high" l + AnalyzeCode.count_severity "medium" l
  + AnalyzeCode.count_severity "low" l + AnalyzeCode.count_severity "info" l
  = length l.
Proof.
  unfold AnalyzeCode.count_severity.
  induction 1 as [|i l Hi _ IH]; [reflexivity|].
  cbn [filter length].
  destruct Hi as [E|[E|[E|E]]]; rewrite E; cbn [String.eqb Ascii.eqb Bool.eqb andb length];
    simpl; lia.
Qed.

Lemma fired_sorted (code : jsstring) :
  StronglySorted (fun a b => rule_index a < rule_index b)
    (filter (fun r => rule_detects r code) rules).
Proof.
  unfold rules. cbn [filter].
  destruct (rule_detects EvalCall code);
    destruct (rule_detects InnerHTMLAssign code);
    destruct (rule_detects VarDecl code);
    destruct (rule_detects ConsoleLog code);
    destruct (rule_detects LooseEquality code);
    repeat (constructor; simpl; try lia).
Qed.

Lemma fired_NoDup (code : jsstring) :
  NoDup (filter (fun r => rule_detects r code) rules).
Proof.
  apply NoDup_filter. unfold rules.
  repeat (constructor; [simpl; intuition discriminate|]). constructor.
Qed.

Lemma fired_length (code : jsstring) :
  length (filter (fun r => rule_detects r code) rules) <= 5.
Proof. apply (filter_length_le (fun r => rule_detects r code) rules). Qed.

Lemma rule_needle_one_line (r : rule) : ~ In LF (rule_needle r).
Proof.
  destruct r; vm_compute; intuition discriminate.
Qed.

(** A rule that fires on the text finds its needle in the text. *)
Lemma rule_detects_needle (r : rule) (text : jsstring) :
  rule_detects r text = true -> includes text (rule_needle r) = true.
Proof.
  destruct r; cbn [rule_detects rule_needle]; intros H; try exact H.
  - apply innerHTML_assign_includes, H.
  - rewrite <- loose_equality_includes. exact H.
Qed.

(** Except for the [innerHTML] rule, a rule fires on a text exactly when the
    text includes its needle. *)
Lemma rule_detects_is_needle (r : rule) (text : jsstring) :
  r <> InnerHTMLAssign ->
  rule_detects r text = includes text (rule_needle r).
Proof.
  destruct r; cbn [rule_detects rule_needle]; intros H; try reflexivity.
  - contradiction.
  - apply loose_equality_includes.
Qed.

Lemma first_line_ext (p q : jsstring -> bool) (lines : list jsstring) (n : nat) :
  (forall l, p l = q l) -> first_line p lines n -> first_line q lines n.
Proof.
  intros E (k & l & Hn & Hk & Hp & Hbefore).
  exists k, l. rewrite <- E. repeat split; try assumption.
  intros j l' Hj Hl'. rewrite <- E. apply (Hbefore j); assumption.
Qed.

(** The line of the Issue of a rule that fired: some line includes the
    needle, and the scan stops at the first such line. *)
Lemma fired_rule_line (r : rule) (code : jsstring) :
  rule_detects r code = true ->
  first_line (fun l => includes l (rule_needle r)) (String_split LF code)
    (AnalyzeCode.findLineNumber code (rule_needle r)).
Proof.
  intros H. apply rule_detects_needle in H.
  destruct (includes_some_line _ _ (rule_needle_one_line r) H) as (l & Hin & Hl).
  unfold AnalyzeCode.findLineNumber.
  destruct (findLineNumber_from_first (String_split LF code) (rule_needle r) 0)
    as (k & l1 & Hk & Hn & Hp & Hbefore); [exists l; split; assumption|].
  exists k, l1. repeat split; assumption.
Qed.

(** ** The suggestions of the service *)

Lemma suggest_issues_app (issues : list CodeProcessor.Issue)
  (acc : list CodeProcessor.Suggestion) :
  CodeProcessor.suggest_issues issues acc
  = acc ++ map security_fix (filter is_high issues).
Proof.
  revert acc. induction issues as [|i issues IH]; intros acc.
  - simpl. rewrite app_nil_r. reflexivity.
  - cbn [CodeProcessor.suggest_issues filter]. rewrite IH.
    unfold is_high at 2. destruct (String.eqb (CodeProcessor.severity i) "high").
    + unfold push. rewrite <- app_assoc. reflexivity.
    + reflexivity.
Qed.

Lemma count_type_security_fixes (l : list CodeProcessor.Issue) :
  count_type "security" (map security_fix l) = length l /\
  count_type "refactoring" (map security_fix l) = 0.
Proof.
  unfold count_type. induction l as [|i l [IH1 IH2]]; [split; reflexivity|].
  split; simpl; [rewrite IH1|rewrite IH2]; reflexivity.
Qed.

(** * The claims *)

(** C1, as stated, fails: on the text [a && b] the command path counts the
    operator and reports complexity 2, the service path reports 1. *)
Lemma cross_caller_counterexample : ~ cross_caller_equivalent (js "a && b").
Proof.
  intros H.
  destruct (AnalyzeCode.analyzeCode sample_now (js "a && b") None)
    as [report|] eqn:E1; [|vm_compute in E1; discriminate].
  destruct (CodeProcessor.analyzeCode (js "a && b"))
    as [analysis|] eqn:E2; [|vm_compute in E2; discriminate].
  destruct (H _ _ _ _ E1 E2) as [Hc _].
  vm_compute in E1, E2. injection E1 as <-. injection E2 as <-.
  vm_compute in Hc. discriminate.
Qed.

(** C1, amended: for every input both paths return and agree on
    [metrics.lines]; the service counts the five identifier keywords only,
    so the complexity of the command path is the complexity of the service
    path plus the number of [&&] and [||] matches; the service emits a single
    Issue (high, security, its own message) exactly when the command path
    emits its [eval(] Issue, and nothing for the four other rules. *)
Theorem cross_caller_relation (now : string) (code : jsstring)
  (language : option jsstring) :
  exists report analysis,
    AnalyzeCode.analyzeCode now code language = Some report /\
    CodeProcessor.analyzeCode code = Some analysis /\
    AnalyzeCode.lines (AnalyzeCode.metrics report)
    = CodeProcessor.lines (CodeProcessor.metrics analysis) /\
    CodeProcessor.complexity (CodeProcessor.metrics analysis)
    = 1 + keyword_points code /\
    AnalyzeCode.complexity (AnalyzeCode.metrics report)
    = CodeProcessor.complexity (CodeProcessor.metrics analysis)
      + operator_points code /\
    CodeProcessor.issues analysis
    = map (fun _ =>
             {| CodeProcessor.severity := "high";
                CodeProcessor.message := "Use of eval() detected";
                CodeProcessor.category := "security" |})
        (filter (fun i =>
                   String.eqb (AnalyzeCode.message i) (rule_message EvalCall))
           (AnalyzeCode.issues report)) /\
    map (fun i => (CodeProcessor.severity i, CodeProcessor.category i))
      (CodeProcessor.issues analysis)
    = map (fun i => (AnalyzeCode.severity i, AnalyzeCode.category i))
        (filter (fun i =>
                   String.eqb (AnalyzeCode.message i) (rule_message EvalCall))
           (AnalyzeCode.issues report)).
Proof.
  destruct (cli_report now code language)
    as (report & E & Hissues & Hlines & Hc & _).
  exists report. unfold CodeProcessor.analyzeCode.
  rewrite service_calculateComplexity_eq. cbn [bind].
  eexists. split; [exact E|]. split; [reflexivity|].
  cbn [CodeProcessor.metrics CodeProcessor.lines CodeProcessor.complexity
       CodeProcessor.issues].
  split; [exact Hlines|]. split; [reflexivity|].
  split; [rewrite Hc; unfold decision_points; lia|].
  rewrite Hissues. unfold rules. cbn [filter rule_detects]. unfold push.
  destruct (includes code (js "eval("));
    destruct (truthy (String_match re_innerHTML_assign code));
    destruct (includes code (js "var "));
    destruct (includes code (js "console.log"));
    destruct (truthy (String_match re_loose_equality code));
    split; reflexivity.
Qed.

(** C2: on [if (a == b) {}] the analyzer emits exactly one Issue, the
    low-severity loose-equality one; on [if (a === b) {}] it emits the very
    same Issue, since the last two signs of [===] are an [==] that no third
    sign follows. *)
Theorem loose_equality_on_strict_equality (now : string)
  (language : option jsstring) :
  let loose :=
    {| AnalyzeCode.severity := "low";
       AnalyzeCode.line := 1;
       AnalyzeCode.message := "Use === instead of == for strict equality";
       AnalyzeCode.category := "best-practices" |} in
  option_map AnalyzeCode.issues
    (AnalyzeCode.analyzeCode now (js "if (a == b) {}") language)
  = Some [loose] /\
  option_map AnalyzeCode.issues
    (AnalyzeCode.analyzeCode now (js "if (a === b) {}") language)
  = Some [loose].
Proof. split; vm_compute; reflexivity. Qed.

(** C3, as stated, fails: in a text whose first line names [innerHTML]
    without assigning it and whose second line assigns it, the Issue of the
    [innerHTML] rule carries line 1, while the first line that contains a
    match of the rule's pattern is line 2. *)
Lemma line_number_counterexample :
  ~ lines_as_specified (two_lines "innerHTML;" "x.innerHTML = 1").
Proof.
  intros H.
  destruct (AnalyzeCode.analyzeCode sample_now
              (two_lines "innerHTML;" "x.innerHTML = 1") None)
    as [report|] eqn:E; [|vm_compute in E; discriminate].
  specialize (H sample_now None report
                {| AnalyzeCode.severity := "medium";
                   AnalyzeCode.line := 1;
                   AnalyzeCode.message := rule_message InnerHTMLAssign;
                   AnalyzeCode.category := "security" |}
                InnerHTMLAssign E).
  vm_compute in E. injection E as <-.
  specialize (H (or_introl eq_refl) eq_refl).
  unfold spec_line in H. cbn [AnalyzeCode.line] in H.
  change (String_split LF (two_lines "innerHTML;" "x.innerHTML = 1"))
    with [js "innerHTML;"; js "x.innerHTML = 1"] in H.
  destruct H as [(k & l & Hk & Hn & Hp & _)|[Hall _]].
  - injection Hk as <-. injection Hn as <-. vm_compute in Hp. discriminate.
  - specialize (Hall (js "x.innerHTML = 1") (or_intror (or_introl eq_refl))).
    vm_compute in Hall. discriminate.
Qed.

(** C3, amended: every emitted Issue belongs to one of the five rules, and
    its line is the 1-based index of the first line that includes the
    substring the analyzer searches for that rule ([eval(], [innerHTML],
    [var ], [console.log], [==]); such a line always exists for an emitted
    Issue.  For every rule but the [innerHTML] one this is the first line
    containing what the rule matches, as the specification says. *)
Theorem issue_line_first_needle_line (now : string) (code : jsstring)
  (language : option jsstring) :
  exists report,
    AnalyzeCode.analyzeCode now code language = Some report /\
    Forall (fun i =>
              exists r,
                AnalyzeCode.message i = rule_message r /\
                first_line (fun l => includes l (rule_needle r))
                  (String_split LF code) (AnalyzeCode.line i) /\
                (r = InnerHTMLAssign \/ spec_line r code (AnalyzeCode.line i)))
      (AnalyzeCode.issues report).
Proof.
  destruct (cli_report now code language) as (report & E & Hissues & _).
  exists report. split; [exact E|]. rewrite Hissues.
  apply Forall_forall. intros i Hi. apply in_map_iff in Hi.
  destruct Hi as (r & <- & Hr). apply filter_In in Hr. destruct Hr as [_ Hr].
  exists r. split; [reflexivity|].
  pose proof (fired_rule_line r code Hr) as Hfirst.
  split; [exact Hfirst|].
  destruct r; try (right; left;
    refine (first_line_ext _ _ _ _ _ Hfirst); intros l; symmetry;
    apply rule_detects_is_needle; discriminate).
  left. reflexivity.
Qed.

(** C4: the complexity of the command path is 1 plus the occurrences of
    [if], [else], [for], [while] and [case] delimited by word boundaries,
    plus the matches of the escaped operators [&&] and [||] read as literal
    substrings. *)
Theorem complexity_counts_keywords (now : string) (code : jsstring)
  (language : option jsstring) :
  AnalyzeCode.calculateComplexity code
  = Some (1 + (count_word "if" code + count_word "else" code
               + count_word "for" code + count_word "while" code
               + count_word "case" code
               + count_literal "&&" code + count_literal "||" code)) /\
  exists report,
    AnalyzeCode.analyzeCode now code language = Some report /\
    AnalyzeCode.complexity (AnalyzeCode.metrics report)
    = 1 + (count_word "if" code + count_word "else" code
           + count_word "for" code + count_word "while" code
           + count_word "case" code
           + count_literal "&&" code + count_literal "||" code).
Proof.
  split.
  - rewrite cli_calculateComplexity_eq.
    unfold decision_points, keyword_points, operator_points. f_equal; lia.
  - destruct (cli_report now code language) as (report & E & _ & _ & Hc & _).
    exists report. split; [exact E|]. rewrite Hc.
    unfold decision_points, keyword_points, operator_points. lia.
Qed.

(** C5: the rating is a function of the complexity alone, with the fixed
    thresholds 5, 10 and 20; an input with exactly 5 counted decision
    keywords has complexity 6 and rating moderate, an input with exactly 4
    has complexity 5 and rating simple. *)
Theorem rating_thresholds (now : string) (code : jsstring)
  (language : option jsstring) :
  exists report,
    AnalyzeCode.analyzeCode now code language = Some report /\
    let c := AnalyzeCode.complexity (AnalyzeCode.metrics report) in
    let rating := AnalyzeCode.complexity_rating (AnalyzeCode.metrics report) in
    rating = AnalyzeCode.getComplexityRating c /\
    (c <= 5 /\ rating = "simple" \/
     5 < c <= 10 /\ rating = "moderate" \/
     10 < c <= 20 /\ rating = "complex" \/
     20 < c /\ rating = "very_complex") /\
    (decision_points code = 5 -> c = 6 /\ rating = "moderate") /\
    (decision_points code = 4 -> c = 5 /\ rating = "simple").
Proof.
  destruct (cli_report now code language)
    as (report & E & _ & _ & Hc & Hr & _).
  exists report. split; [exact E|]. cbv zeta. rewrite Hr, Hc.
  split; [reflexivity|]. split.
  - unfold AnalyzeCode.getComplexityRating.
    destruct (1 + decision_points code <=? 5) eqn:E5;
      [apply Nat.leb_le in E5; left; split; [exact E5|reflexivity]|].
    apply Nat.leb_gt in E5.
    destruct (1 + decision_points code <=? 10) eqn:E10;
      [apply Nat.leb_le in E10; right; left; split; [lia|reflexivity]|].
    apply Nat.leb_gt in E10.
    destruct (1 + decision_points code <=? 20) eqn:E20;
      [apply Nat.leb_le in E20; right; right; left; split; [lia|reflexivity]|].
    apply Nat.leb_gt in E20. right; right; right. split; [lia|reflexivity].
  - split; intros ->; split; reflexivity.
Qed.

Lemma rating_thresholds_witness :
  (exists report,
     AnalyzeCode.analyzeCode sample_now
       (js "if (a) { for (;;) { while (b) { if (c) {} else {} } } }") None
     = Some report /\
     AnalyzeCode.complexity (AnalyzeCode.metrics report) = 6 /\
     AnalyzeCode.complexity_rating (AnalyzeCode.metrics report) = "moderate") /\
  (exists report,
     AnalyzeCode.analyzeCode sample_now
       (js "if (a && b) { x(); } else if (c) { y(); }") None
     = Some report /\
     AnalyzeCode.complexity (AnalyzeCode.metrics report) = 5 /\
     AnalyzeCode.complexity_rating (AnalyzeCode.metrics report) = "simple").
Proof.
  split.
  - destruct (rating_thresholds sample_now
                (js "if (a) { for (;;) { while (b) { if (c) {} else {} } } }")
                None) as (report & E & _ & _ & H5 & _).
    exists report. split; [exact E|]. apply H5. vm_compute. reflexivity.
  - destruct (rating_thresholds sample_now
                (js "if (a && b) { x(); } else if (c) { y(); }")
                None) as (report & E & _ & _ & _ & H4).
    exists report. split; [exact E|]. apply H4. vm_compute. reflexivity.
Defined.

(** C6: in every report, [summary.total_issues] is the number of Issues,
    and the four severity counts add up to it. *)
Theorem summary_consistency (now : string) (code : jsstring)
  (language : option jsstring) :
  exists report,
    AnalyzeCode.analyzeCode now code language = Some report /\
    let s := AnalyzeCode.summary report in
    AnalyzeCode.total_issues s = length (AnalyzeCode.issues report) /\
    AnalyzeCode.high s + AnalyzeCode.medium s + AnalyzeCode.low s
    + AnalyzeCode.info s
    = length (AnalyzeCode.issues report).
Proof.
  destruct (cli_report now code language)
    as (report & E & Hissues & _ & _ & _ & Hs).
  exists report. split; [exact E|]. cbv zeta. rewrite Hs.
  cbn [AnalyzeCode.total_issues AnalyzeCode.high AnalyzeCode.medium
       AnalyzeCode.low AnalyzeCode.info].
  split; [reflexivity|].
  apply count_severity_partition. rewrite Hissues.
  apply Forall_forall. intros i Hi. apply in_map_iff in Hi.
  destruct Hi as (r & <- & _). apply rule_severity_cases.
Qed.

(** C7: the empty text has one line, complexity 1, no Issue and
    [summary.total_issues = 0]. *)
Theorem empty_input (now : string) (language : option jsstring) :
  exists report,
    AnalyzeCode.analyzeCode now (js "") language = Some report /\
    AnalyzeCode.lines (AnalyzeCode.metrics report) = 1 /\
    AnalyzeCode.complexity (AnalyzeCode.metrics report) = 1 /\
    AnalyzeCode.issues report = [] /\
    AnalyzeCode.total_issues (AnalyzeCode.summary report) = 0.
Proof. eexists. split; [vm_compute; reflexivity|]. repeat split. Qed.

(** C8: the Issues of a report are the Issues of the rules that fired, each
    rule once, in the fixed order eval, innerHTML, var, console.log, loose
    equality, so there are at most five; the order is neither by line (an
    [eval(] on line 2 comes before an [==] on line 1) nor by severity (info
    comes before low, high before low). *)
Theorem issues_in_rule_order :
  (forall now code language,
      exists report fired,
        AnalyzeCode.analyzeCode now code language = Some report /\
        AnalyzeCode.issues report = map (fun r => rule_issue r code) fired /\
        StronglySorted (fun a b => rule_index a < rule_index b) fired /\
        NoDup fired /\
        length (AnalyzeCode.issues report) <= 5) /\
  (exists report,
      AnalyzeCode.analyzeCode sample_now (two_lines "a == b" "eval(x)") None
      = Some report /\
      map AnalyzeCode.line (AnalyzeCode.issues report) = [2; 1] /\
      map AnalyzeCode.severity (AnalyzeCode.issues report) = ["high"; "low"]) /\
  (exists report,
      AnalyzeCode.analyzeCode sample_now (js "console.log(a == b)") None
      = Some report /\
      map AnalyzeCode.severity (AnalyzeCode.issues report) = ["info"; "low"]).
Proof.
  split; [|split].
  - intros now code language.
    destruct (cli_report now code language) as (report & E & Hissues & _).
    exists report, (filter (fun r => rule_detects r code) rules).
    split; [exact E|]. split; [exact Hissues|].
    split; [apply fired_sorted|]. split; [apply fired_NoDup|].
    rewrite Hissues, length_map. apply fired_length.
  - eexists. split; [vm_compute; reflexivity|]. split; reflexivity.
  - eexists. split; [vm_compute; reflexivity|]. reflexivity.
Qed.

(** C9: the suggestions are one refactoring suggestion when the complexity
    exceeds 10 and none otherwise, followed by one security-fix suggestion
    for each Issue of severity high, in order, and nothing else. *)
Theorem suggestions_exact (analysis : CodeProcessor.Analysis) :
  let c := CodeProcessor.complexity (CodeProcessor.metrics analysis) in
  let highs := filter is_high (CodeProcessor.issues analysis) in
  let suggestions := CodeProcessor.generateSuggestions analysis in
  suggestions
  = (if 10 <? c then [refactoring_suggestion] else [])
      ++ map security_fix highs /\
  count_type "refactoring" suggestions = (if 10 <? c then 1 else 0) /\
  count_type "security" suggestions = length highs /\
  length suggestions = (if 10 <? c then 1 else 0) + length highs.
Proof.
  cbv zeta. unfold CodeProcessor.generateSuggestions.
  rewrite suggest_issues_app.
  destruct (count_type_security_fixes
              (filter is_high (CodeProcessor.issues analysis))) as [Hs Hr].
  unfold count_type in *.
  destruct (10 <? CodeProcessor.complexity (CodeProcessor.metrics analysis)).
  - unfold push. cbn [app]. split; [reflexivity|].
    cbn [filter refactoring_suggestion CodeProcessor.type].
    change (String.eqb "refactoring" "refactoring") with true.
    change (String.eqb "refactoring" "security") with false.
    cbn [length]. rewrite Hs, Hr, length_map. repeat split.
  - cbn [app]. rewrite Hs, Hr, length_map. repeat split.
Qed.

(** C10: every Issue of a report carries a line between 1 and
    [metrics.lines]. *)
Theorem issue_line_in_range (now : string) (code : jsstring)
  (language : option jsstring) :
  exists report,
    AnalyzeCode.analyzeCode now code language = Some report /\
    Forall (fun i =>
              1 <= AnalyzeCode.line i
              <= AnalyzeCode.lines (AnalyzeCode.metrics report))
      (AnalyzeCode.issues report).
Proof.
  destruct (cli_report now code language)
    as (report & E & Hissues & Hlines & _).
  exists report. split; [exact E|]. rewrite Hissues, Hlines.
  apply Forall_forall. intros i Hi. apply in_map_iff in Hi.
  destruct Hi as (r & <- & _). apply findLineNumber_bounds.
Qed.

(** * Further properties of the analyzers *)

(** ** Lines *)

Lemma String_split_length (s : jsstring) :
  length (String_split LF s) = S (count_occ N.eq_dec s LF).
Proof.
  induction s as [|c s IH]; [reflexivity|].
  cbn [String_split count_occ].
  destruct (N.eq_dec c LF) as [->|Hc].
  - rewrite N.eqb_refl. cbn [length]. rewrite IH. reflexivity.
  - apply N.eqb_neq in Hc. rewrite Hc.
    destruct (String_split LF s) as [|l ls] eqn:E; [discriminate|].
    cbn [length] in *. exact IH.
Qed.

Lemma String_split_no_separator (s : jsstring) :
  Forall (fun l => ~ In LF l) (String_split LF s).
Proof.
  induction s as [|c s IH]; cbn [String_split].
  - constructor; [intros []|constructor].
  - destruct (c =? LF)%N eqn:Ec.
    + constructor; [intros []|exact IH].
    + apply N.eqb_neq in Ec.
      destruct (String_split LF s) as [|l ls]; [constructor; [|constructor]|].
      * intros [H|[]]. congruence.
      * inversion IH as [|? ? Hl Hls]; subst. constructor; [|exact Hls].
        intros [H|H]; [congruence|contradiction].
Qed.

Lemma startsWith_In (p s : jsstring) (c : N) :
  startsWith p s = true -> In c p -> In c s.
Proof.
  revert s. induction p as [|a p IH]; intros [|b s] H Hin; simpl in *;
    try contradiction; try discriminate.
  apply andb_true_iff in H. destruct H as [Hab Hp]. apply N.eqb_eq in Hab.
  destruct Hin as [<-|Hin]; [left; symmetry; exact Hab|right; apply IH; assumption].
Qed.

Lemma includes_In (s p : jsstring) (c : N) :
  includes s p = true -> In c p -> In c s.
Proof.
  induction s as [|x s IH]; intros H Hin.
  - simpl in H. rewrite orb_false_r in H.
    apply (startsWith_In p [] c H Hin).
  - cbn [includes] in H. apply orb_true_iff in H. destruct H as [H|H].
    + apply (startsWith_In p (x :: s) c H Hin).
    + right. apply IH; assumption.
Qed.

(** [findLineNumber] for any text and any pattern: the 1-based index of the
    first line that includes the pattern, or 1 when no line includes it; the
    answer 1 therefore does not tell whether the pattern was found. *)
Theorem findLineNumber_first_or_one (code pattern : jsstring) :
  let lines := String_split LF code in
  let n := AnalyzeCode.findLineNumber code pattern in
  1 <= n <= length lines /\
  (first_line (fun l => includes l pattern) lines n \/
   (forall l, In l lines -> includes l pattern = false) /\ n = 1).
Proof.
  cbv zeta. split; [apply findLineNumber_bounds|].
  destruct (existsb (fun l => includes l pattern) (String_split LF code)) eqn:E.
  - left. apply existsb_exists in E.
    destruct (findLineNumber_from_first (String_split LF code) pattern 0 E)
      as (k & l & Hk & Hn & Hp & Hbefore).
    exists k, l. repeat split; assumption.
  - right. assert (H : forall l, In l (String_split LF code) ->
                                 includes l pattern = false).
    { intros l Hl. destruct (includes l pattern) eqn:El; [|reflexivity].
      assert (X : existsb (fun l => includes l pattern) (String_split LF code) = true)
        by (apply existsb_exists; exists l; split; assumption).
      congruence. }
    split; [exact H|apply findLineNumber_fallback, H].
Qed.

(** A pattern that contains a line feed lies on no single line, so
    [findLineNumber] answers 1 for it wherever it occurs in the text. *)
Theorem findLineNumber_multiline_pattern (code pattern : jsstring) :
  In LF pattern -> AnalyzeCode.findLineNumber code pattern = 1.
Proof.
  intros Hin. apply findLineNumber_fallback. intros l Hl.
  destruct (includes l pattern) eqn:E; [|reflexivity].
  exfalso. pose proof (String_split_no_separator code) as Hno.
  rewrite Forall_forall in Hno. apply (Hno l Hl).
  apply (includes_In l pattern LF E Hin).
Qed.

Lemma findLineNumber_multiline_pattern_witness :
  includes (two_lines "x;" "let a;" ++ LF :: js "a = 1;")
    (two_lines "let a;" "a") = true /\
  AnalyzeCode.findLineNumber (two_lines "x;" "let a;" ++ LF :: js "a = 1;")
    (two_lines "let a;" "a") = 1.
Proof.
  split; [reflexivity|].
  apply findLineNumber_multiline_pattern. vm_compute. right. right. right.
  right. right. right. left. reflexivity.
Defined.

(** ** Metrics *)

Lemma cli_metrics (now : string) (code : jsstring) (language : option jsstring) :
  exists report,
    AnalyzeCode.analyzeCode now code language = Some report /\
    AnalyzeCode.language report
    = match language with Some l => l | None => js "javascript" end /\
    AnalyzeCode.analyzed_at report = now /\
    AnalyzeCode.lines (AnalyzeCode.metrics report)
    = length (String_split LF code) /\
    AnalyzeCode.characters (AnalyzeCode.metrics report) = length code /\
    AnalyzeCode.average_line_length (AnalyzeCode.metrics report)
    = AnalyzeCode.Math_round_div (length code) (length (String_split LF code)).
Proof.
  unfold AnalyzeCode.analyzeCode.
  rewrite cli_calculateComplexity_eq. cbn [bind].
  eexists. split; [reflexivity|]. repeat split.
Qed.

Lemma count_occ_le_length (s : jsstring) (c : N) :
  count_occ N.eq_dec s c <= length s.
Proof.
  induction s as [|x s IH]; simpl; [lia|].
  destruct (N.eq_dec x c); simpl; lia.
Qed.

(** The line count is the number of line feeds plus one (a trailing line
    feed opens one more, empty, line), between 1 and the number of
    characters plus one; the average line length never exceeds the number
    of characters. *)
Theorem line_metrics (now : string) (code : jsstring)
  (language : option jsstring) :
  exists report,
    AnalyzeCode.analyzeCode now code language = Some report /\
    let m := AnalyzeCode.metrics report in
    AnalyzeCode.characters m = length code /\
    AnalyzeCode.lines m = 1 + count_occ N.eq_dec code LF /\
    1 <= AnalyzeCode.lines m <= AnalyzeCode.characters m + 1 /\
    AnalyzeCode.average_line_length m <= AnalyzeCode.characters m.
Proof.
  destruct (cli_metrics now code language)
    as (report & E & _ & _ & Hl & Hc & Ha).
  exists report. split; [exact E|]. cbv zeta.
  rewrite Ha, Hl, Hc, String_split_length.
  pose proof (count_occ_le_length code LF) as Hle.
  split; [reflexivity|]. split; [reflexivity|]. split; [lia|].
  unfold AnalyzeCode.Math_round_div.
  set (a := length code) in *. set (b := S (count_occ N.eq_dec code LF)).
  apply Nat.lt_succ_r, Nat.Div0.div_lt_upper_bound. nia.
Qed.

(** ** Which Issues a text gets *)

(** The loose-equality Issue is emitted exactly when the text includes two
    adjacent equal signs anywhere, whatever surrounds them: the lookahead of
    the pattern never spares a text, so a text whose only comparison is
    [===] is flagged as well. *)
Theorem loose_equality_issue_iff_includes (now : string) (code : jsstring)
  (language : option jsstring) :
  exists report,
    AnalyzeCode.analyzeCode now code language = Some report /\
    existsb (fun i => String.eqb (AnalyzeCode.message i)
                        "Use === instead of == for strict equality")
      (AnalyzeCode.issues report)
    = includes code (js "==").
Proof.
  destruct (cli_report now code language) as (report & E & Hissues & _).
  exists report. split; [exact E|]. rewrite Hissues.
  rewrite <- loose_equality_includes.
  change (truthy (String_match re_loose_equality code))
    with (rule_detects LooseEquality code).
  unfold rules. cbn [filter].
  destruct (rule_detects EvalCall code);
    destruct (rule_detects InnerHTMLAssign code);
    destruct (rule_detects VarDecl code);
    destruct (rule_detects ConsoleLog code);
    destruct (rule_detects LooseEquality code);
    reflexivity.
Qed.

(** The severity counts of the summary as functions of the text: [high] is
    1 when the text includes [eval(] and 0 otherwise, [medium] follows the
    [innerHTML] assignment pattern, [info] follows [console.log], and [low]
    adds the [var ] rule and the [==] rule, so it is the only count that can
    reach 2. *)
Theorem summary_counts_by_rule (now : string) (code : jsstring)
  (language : option jsstring) :
  exists report,
    AnalyzeCode.analyzeCode now code language = Some report /\
    let s := AnalyzeCode.summary report in
    AnalyzeCode.high s = Nat.b2n (includes code (js "eval(")) /\
    AnalyzeCode.medium s
    = Nat.b2n (truthy (String_match re_innerHTML_assign code)) /\
    AnalyzeCode.low s
    = Nat.b2n (includes code (js "var ")) + Nat.b2n (includes code (js "==")) /\
    AnalyzeCode.info s = Nat.b2n (includes code (js "console.log")) /\
    AnalyzeCode.total_issues s
    = AnalyzeCode.high s + AnalyzeCode.medium s + AnalyzeCode.low s
      + AnalyzeCode.info s.
Proof.
  destruct (cli_report now code language)
    as (report & E & Hissues & _ & _ & _ & Hs).
  exists report. split; [exact E|]. cbv zeta. rewrite Hs, Hissues.
  cbn [AnalyzeCode.total_issues AnalyzeCode.high AnalyzeCode.medium
       AnalyzeCode.low AnalyzeCode.info].
  rewrite <- loose_equality_includes.
  change (truthy (String_match re_loose_equality code))
    with (rule_detects LooseEquality code).
  change (truthy (String_match re_innerHTML_assign code))
    with (rule_detects InnerHTMLAssign code).
  change (includes code (js "eval(")) with (rule_detects EvalCall code).
  change (includes code (js "var ")) with (rule_detects VarDecl code).
  change (includes code (js "console.log")) with (rule_detects ConsoleLog code).
  unfold rules. cbn [filter].
  destruct (rule_detects EvalCall code);
    destruct (rule_detects InnerHTMLAssign code);
    destruct (rule_detects VarDecl code);
    destruct (rule_detects ConsoleLog code);
    destruct (rule_detects LooseEquality code);
    repeat split.
Qed.

(** ** Complexity, line by line *)

Lemma is_word_LF : is_word LF = false.
Proof. reflexivity. Qed.

(** What follows a line feed does not matter to an occurrence of a text
    without line feed. *)
Lemma startsWith_before_LF (p s b : jsstring) :
  ~ In LF p -> startsWith p (s ++ LF :: b) = startsWith p s.
Proof.
  revert s. induction p as [|k p IH]; intros s Hp; [reflexivity|].
  destruct s as [|x s]; cbn [app startsWith].
  - destruct (k =? LF)%N eqn:E; [|reflexivity].
    apply N.eqb_eq in E. exfalso. apply Hp. left. exact E.
  - rewrite IH; [reflexivity|]. intros H. apply Hp. right. exact H.
Qed.

Lemma word_after_before_LF (s b : jsstring) :
  word_after (s ++ LF :: b) = word_after s.
Proof. destruct s; reflexivity. Qed.

Lemma forallb_word_no_LF (kw : jsstring) :
  forallb is_word kw = true -> ~ In LF kw.
Proof.
  intros Hw Hin. rewrite forallb_forall in Hw.
  specialize (Hw LF Hin). rewrite is_word_LF in Hw. discriminate.
Qed.

Lemma startsWith_skipn_app (p s b : jsstring) :
  startsWith p s = true ->
  skipn (length p) (s ++ b) = skipn (length p) s ++ b.
Proof.
  revert s. induction p as [|k p IH]; intros s H; [reflexivity|].
  destruct s as [|x s]; [discriminate|]. cbn [startsWith] in H.
  apply andb_true_iff in H. destruct H as [_ H].
  cbn [length app skipn]. apply IH, H.
Qed.

Lemma delimited_here_before_LF (kw : jsstring) (prev : option N)
  (s b : jsstring) :
  forallb is_word kw = true ->
  delimited_here kw prev (s ++ LF :: b) = delimited_here kw prev s.
Proof.
  intros Hw. unfold delimited_here.
  rewrite (startsWith_before_LF kw s b (forallb_word_no_LF kw Hw)).
  destruct (startsWith kw s) eqn:Es; [|reflexivity].
  rewrite (startsWith_skipn_app kw s (LF :: b) Es), word_after_before_LF.
  reflexivity.
Qed.

Lemma count_word_from_prev (kw : jsstring) (p q : option N) (s : jsstring) :
  word_before p = word_before q ->
  count_word_from kw p s = count_word_from kw q s.
Proof.
  intros H. destruct s as [|x s]; [reflexivity|].
  cbn [count_word_from]. unfold delimited_here. rewrite H. reflexivity.
Qed.

Lemma count_word_from_lines (kw : jsstring) (prev : option N)
  (a b : jsstring) :
  kw <> [] -> forallb is_word kw = true ->
  count_word_from kw prev (a ++ LF :: b)
  = count_word_from kw prev a + count_word_from kw None b.
Proof.
  intros Hne Hw. revert prev. induction a as [|x a IH]; intros prev.
  - cbn [app count_word_from].
    change (LF :: b) with ([] ++ LF :: b).
    rewrite (delimited_here_before_LF kw prev [] b Hw).
    unfold delimited_here. destruct kw; [contradiction|]. cbn [startsWith andb].
    apply (count_word_from_prev _ (Some LF) None b). reflexivity.
  - cbn [app count_word_from].
    change (x :: a ++ LF :: b) with ((x :: a) ++ LF :: b).
    rewrite (delimited_here_before_LF kw prev (x :: a) b Hw), IH. lia.
Qed.

Lemma count_literal_from_lines (op a b : jsstring) (skip : nat) :
  op <> [] -> ~ In LF op -> skip <= length a ->
  count_literal_from op (a ++ LF :: b) skip
  = count_literal_from op a skip + count_literal_from op b 0.
Proof.
  intros Hne Hop. revert skip. induction a as [|x a IH]; intros skip Hskip.
  - cbn [length] in Hskip. replace skip with 0 by lia.
    cbn [app count_literal_from].
    change (LF :: b) with ([] ++ LF :: b).
    rewrite (startsWith_before_LF op [] b Hop).
    destruct op; [contradiction|]. reflexivity.
  - cbn [app count_literal_from]. destruct skip as [|k].
    + change (x :: a ++ LF :: b) with ((x :: a) ++ LF :: b).
      rewrite (startsWith_before_LF op (x :: a) b Hop).
      destruct (startsWith op (x :: a)) eqn:Es.
      * apply startsWith_length in Es. cbn [length] in Es.
        rewrite IH by lia. lia.
      * apply IH. lia.
    + apply IH. cbn [length] in Hskip. lia.
Qed.

Lemma decision_points_lines (a b : jsstring) :
  keyword_points (a ++ LF :: b) = keyword_points a + keyword_points b /\
  operator_points (a ++ LF :: b) = operator_points a + operator_points b.
Proof.
  unfold keyword_points, operator_points, count_word, count_literal.
  rewrite !count_word_from_lines by (try discriminate; reflexivity).
  rewrite !count_literal_from_lines
    by (try discriminate; try lia; vm_compute; intuition discriminate).
  split; lia.
Qed.

(** Decision points are counted line by line: no keyword or operator match
    spans a line feed, so on both paths the complexity of two texts joined
    by a line feed is the sum of their complexities minus one. *)
Theorem complexity_adds_over_lines (a b : jsstring) :
  exists ca cb c sa sb s,
    AnalyzeCode.calculateComplexity a = Some ca /\
    AnalyzeCode.calculateComplexity b = Some cb /\
    AnalyzeCode.calculateComplexity (a ++ LF :: b) = Some c /\
    c + 1 = ca + cb /\
    CodeProcessor.calculateComplexity a = Some sa /\
    CodeProcessor.calculateComplexity b = Some sb /\
    CodeProcessor.calculateComplexity (a ++ LF :: b) = Some s /\
    s + 1 = sa + sb.
Proof.
  destruct (decision_points_lines a b) as [Hk Ho].
  rewrite !cli_calculateComplexity_eq, !service_calculateComplexity_eq.
  do 6 eexists. repeat (split; [reflexivity|]).
  unfold decision_points. rewrite Hk, Ho. split; [lia|].
  repeat (split; [reflexivity|]). lia.
Qed.

(** ** The service: analysis followed by suggestions *)

(** For the analysis the service itself computes, the suggestions are at
    most two: the refactoring one exactly when the rating is [complex]
    (more than nine delimited keywords), then one security fix, with the
    text [Fix security issue: Use of eval() detected], exactly when the
    text includes [eval(]. *)
Theorem service_suggestions_of_text (code : jsstring) :
  exists analysis,
    CodeProcessor.analyzeCode code = Some analysis /\
    CodeProcessor.rating (CodeProcessor.metrics analysis)
    = (if 9 <? keyword_points code then "complex" else "simple") /\
    CodeProcessor.generateSuggestions analysis
    = (if 9 <? keyword_points code then [refactoring_suggestion] else [])
        ++ (if includes code (js "eval(")
            then [{| CodeProcessor.type := "security";
                     CodeProcessor.suggestion_message :=
                       "Fix security issue: Use of eval() detected" |}]
            else []) /\
    length (CodeProcessor.generateSuggestions analysis) <= 2.
Proof.
  unfold CodeProcessor.analyzeCode.
  rewrite service_calculateComplexity_eq. cbn [bind].
  eexists. split; [reflexivity|].
  unfold CodeProcessor.generateSuggestions.
  cbn [CodeProcessor.metrics CodeProcessor.rating CodeProcessor.complexity
       CodeProcessor.issues].
  change (1 + keyword_points code <=? 10) with (keyword_points code <=? 9).
  change (10 <? 1 + keyword_points code) with (9 <? keyword_points code).
  rewrite Nat.ltb_antisym.
  destruct (keyword_points code <=? 9); destruct (includes code (js "eval("));
    cbn; repeat split; lia.
Qed.

(** ** The entry point of the analyzer *)

(** [main] of the analyzer has two outcomes only.  Without a first argument,
    or with an empty one, it prints the usage error and exits with status 1.
    Otherwise it prints the report of [analyzeCode] on that argument and
    exits with status 0, the language being the second argument, or
    [javascript] when that one is absent or empty.  The [catch] branch is
    never taken, and since an empty text is refused the printed report
    always counts at least one character. *)
Theorem analyze_main_outcomes (now : string) (argv : list jsstring) :
  (falsy (nth_error argv 2) = true /\
   exists error usage example,
     AnalyzeCodeMain.main now argv = (StderrUsage error usage example, 1)) \/
  (exists code report,
     nth_error argv 2 = Some code /\ code <> [] /\
     AnalyzeCodeMain.main now argv = (Stdout report, 0) /\
     AnalyzeCode.analyzeCode now code
       (Some (or_else (nth_error argv 3) (js "javascript")))
     = Some report /\
     AnalyzeCode.language report <> [] /\
     1 <= AnalyzeCode.characters (AnalyzeCode.metrics report)).
Proof.
  unfold AnalyzeCodeMain.main.
  destruct (nth_error argv 2) as [[|c code]|] eqn:E2; cbn [falsy].
  - left. split; [reflexivity|]. do 3 eexists. reflexivity.
  - right. cbn [or_else].
    destruct (cli_metrics now (c :: code)
                (Some (or_else (nth_error argv 3) (js "javascript"))))
      as (report & E & Hlang & _ & _ & Hc & _).
    exists (c :: code), report. rewrite E.
    split; [reflexivity|]. split; [discriminate|]. split; [reflexivity|].
    split; [reflexivity|]. split.
    + rewrite Hlang. destruct (nth_error argv 3) as [[|x l]|]; discriminate.
    + rewrite Hc. cbn [length]. lia.
  - left. split; [reflexivity|]. do 3 eexists. reflexivity.
Qed.

(** ** The validators *)

Lemma count_literal_from_single (c : N) (s : jsstring) :
  count_literal_from [c] s 0 = count_occ N.eq_dec s c.
Proof.
  induction s as [|x s IH]; [reflexivity|].
  cbn [count_literal_from startsWith length pred count_occ].
  rewrite andb_true_r, N.eqb_sym.
  destruct (N.eq_dec x c) as [->|H].
  - rewrite N.eqb_refl, IH. reflexivity.
  - apply N.eqb_neq in H. rewrite H. exact IH.
Qed.

(** [(code.match(/c/g) || []).length] counts the code unit [c]. *)
Lemma match_count_single (c : N) (s : jsstring) :
  AnalyzeCode.match_count (literal [c]) s = count_occ N.eq_dec s c.
Proof.
  unfold AnalyzeCode.match_count.
  rewrite <- count_literal_from_single,
    <- (match_all_literal [c] None s 0) by discriminate.
  unfold String_match_g. destruct (match_all (literal [c]) None s 0); reflexivity.
Qed.

Lemma bracket_literals :
  RegExp (js "\{") = Some re_open_brace /\
  RegExp (js "\}") = Some re_close_brace /\
  RegExp (js "\(") = Some re_open_paren /\
  RegExp (js "\)") = Some re_close_paren /\
  RegExp (js "\[") = Some re_open_bracket /\
  RegExp (js "\]") = Some re_close_bracket.
Proof. repeat split; vm_compute; reflexivity. Qed.

Lemma validate_counts (code : jsstring) :
  AnalyzeCode.match_count re_open_brace code = occurrences "{" code /\
  AnalyzeCode.match_count re_close_brace code = occurrences "}" code /\
  AnalyzeCode.match_count re_open_paren code = occurrences "(" code /\
  AnalyzeCode.match_count re_close_paren code = occurrences ")" code /\
  AnalyzeCode.match_count re_open_bracket code = occurrences "[" code /\
  AnalyzeCode.match_count re_close_bracket code = occurrences "]" code.
Proof. repeat split; apply match_count_single. Qed.

(** The verdict of the command-line validator: a text is valid exactly when
    the parser accepts it and it holds as many [{] as [}], as many [(] as
    [)] and as many [[] as []], counted anywhere in the text, string
    literals and comments included.  A rejected text gets one error, the
    parser's message; an accepted one gets one error for each kind of
    bracket that is uneven. *)
Theorem validate_verdict (parse_error : jsstring -> option string)
  (now : string) (code : jsstring) :
  let result := ValidateCode.validateCode parse_error now code in
  ValidateCode.valid result
  = match parse_error code with
    | Some _ => false
    | None => braces_even code && parens_even code && brackets_even code
    end /\
  ValidateCode.error_count (ValidateCode.summary result)
  = match parse_error code with
    | Some _ => 1
    | None =>
        Nat.b2n (negb (braces_even code)) + Nat.b2n (negb (parens_even code))
        + Nat.b2n (negb (brackets_even code))
    end /\
  length (ValidateCode.errors result)
  = ValidateCode.error_count (ValidateCode.summary result).
Proof.
  cbv zeta. unfold ValidateCode.validateCode.
  destruct (parse_error code) as [m|]; [repeat split|].
  destruct (validate_counts code) as (-> & -> & -> & -> & -> & ->).
  fold (braces_even code) (parens_even code) (brackets_even code).
  cbn [ValidateCode.valid ValidateCode.summary ValidateCode.error_count
       ValidateCode.errors].
  destruct (braces_even code); destruct (parens_even code);
    destruct (brackets_even code); repeat split.
Qed.

(** Style warnings are computed only for a text the parser accepts: a
    rejected text gets none, whatever it contains.  An accepted text gets
    the [var] warning exactly when it includes [var ], and the [==] warning
    exactly when it includes two adjacent equal signs, those of [===]
    included. *)
Theorem validate_warnings (parse_error : jsstring -> option string)
  (now : string) (code : jsstring) :
  let result := ValidateCode.validateCode parse_error now code in
  ValidateCode.warning_count (ValidateCode.summary result)
  = length (ValidateCode.warnings result) /\
  Forall (fun w => ValidateCode.type w = "style")
    (ValidateCode.warnings result) /\
  length (ValidateCode.warnings result)
  = match parse_error code with
    | Some _ => 0
    | None =>
        Nat.b2n (includes code (js "var "))
        + Nat.b2n (includes code (js "=="))
    end.
Proof.
  cbv zeta. unfold ValidateCode.validateCode.
  destruct (parse_error code) as [m|];
    [split; [reflexivity|]; split; [constructor|reflexivity]|].
  rewrite loose_equality_includes.
  cbn [ValidateCode.warnings ValidateCode.summary ValidateCode.warning_count].
  destruct (includes code (js "var ")); destruct (includes code (js "=="));
    (split; [reflexivity|]); (split; [|reflexivity]);
    repeat constructor.
Qed.

(** The validator of the service checks the braces only, so it accepts
    every text the command-line validator accepts; the command-line verdict
    is the service verdict together with even parentheses and even
    brackets. *)
Theorem validators_compared (parse_error : jsstring -> option string)
  (now : string) (code : jsstring) :
  ValidateCode.valid (ValidateCode.validateCode parse_error now code)
  = CodeProcessorValidate.valid
      (CodeProcessorValidate.validateCode parse_error code)
    && parens_even code && brackets_even code /\
  CodeProcessorValidate.valid
    (CodeProcessorValidate.validateCode parse_error code)
  = match parse_error code with
    | Some _ => false
    | None => braces_even code
    end.
Proof.
  destruct (validate_verdict parse_error now code) as (-> & _).
  unfold CodeProcessorValidate.validateCode.
  destruct (parse_error code) as [m|]; [split; reflexivity|].
  destruct (validate_counts code) as (-> & -> & _).
  fold (braces_even code). cbn [CodeProcessorValidate.valid].
  destruct (braces_even code); split; reflexivity.
Qed.

(** The status of the validator's [main]: 0 exactly when the first argument
    is present and not empty, the parser accepts it and its brackets are
    even.  The verdict is printed on the standard output whether the text is
    valid or not; only the usage error goes to the error stream. *)
Theorem validate_main_status (parse_error : jsstring -> option string)
  (now : string) (argv : list jsstring) :
  let outcome := ValidateCode.main parse_error now argv in
  snd outcome
  = match nth_error argv 2 with
    | Some (c :: code) =>
        match parse_error (c :: code) with
        | Some _ => 1
        | None =>
            if braces_even (c :: code) && parens_even (c :: code)
               && brackets_even (c :: code)
            then 0 else 1
        end
    | _ => 1
    end /\
  match nth_error argv 2 with
  | Some (c :: code) =>
      fst outcome
      = Stdout (ValidateCode.validateCode parse_error now (c :: code))
  | _ => exists error usage example,
           fst outcome = StderrUsage error usage example
  end.
Proof.
  cbv zeta. unfold ValidateCode.main.
  destruct (nth_error argv 2) as [[|c code]|]; cbn [falsy or_else fst snd].
  - split; [reflexivity|]. do 3 eexists. reflexivity.
  - destruct (validate_verdict parse_error now (c :: code)) as (-> & _).
    destruct (parse_error (c :: code)); split; reflexivity.
  - split; [reflexivity|]. do 3 eexists. reflexivity.
Qed.


(** ** The formatter of the service *)



Lemma trimStart_suffix (s : jsstring) :
  exists w, s = w ++ trimStart s.
Proof.
  induction s as [|x s [w IH]]; [exists []; reflexivity|].
  cbn [trimStart]. destruct (is_space x).
  - exists (x :: w). cbn [app]. f_equal. exact IH.
  - exists []. reflexivity.
Qed.

Lemma trimStart_head (s : jsstring) :
  match trimStart s with
  | [] => True
  | x :: _ => is_space x = false
  end.
Proof.
  induction s as [|x s IH]; [exact I|].
  cbn [trimStart]. destruct (is_space x) eqn:E; [exact IH|exact E].
Qed.


Lemma trimEnd_prefix (s : jsstring) :
  exists w, s = trimEnd s ++ w.
Proof.
  unfold trimEnd. destruct (trimStart_suffix (rev s)) as [w Hw].
  exists (rev w). rewrite <- rev_app_distr, <- Hw, rev_involutive. reflexivity.
Qed.

Lemma String_trim_trimmed (s : jsstring) : trimmed (String_trim s).
Proof.
  unfold String_trim, trimEnd.
  pose proof (trimStart_head s) as Hhead.
  pose proof (trimStart_head (rev (trimStart s))) as Hlast.
  destruct (trimStart_suffix (rev (trimStart s))) as [w Hw].
  destruct (trimStart (rev (trimStart s))) as [|y u] eqn:Eu; [left; reflexivity|].
  right. split.
  - apply (f_equal (@rev N)) in Hw. rewrite rev_involutive, rev_app_distr in Hw.
    destruct (rev (y :: u)) as [|x t] eqn:Er.
    + apply (f_equal (@length N)) in Er. rewrite length_rev in Er. discriminate.
    + exists x, t. split; [reflexivity|].
      rewrite Hw in Hhead. exact Hhead.
  - exists y, (rev u). split; [reflexivity|exact Hlast].
Qed.


Lemma needs_semicolon_not_space (c : N) :
  needs_semicolon c = true -> is_space c = false.
Proof.
  unfold needs_semicolon, statement_end_class. cbn [in_cset existsb in_class].
  destruct (is_space c); [|reflexivity].
  rewrite !orb_true_r. discriminate.
Qed.









Lemma String_split_cons (x : N) (t : jsstring) :
  (x =? LF)%N = false ->
  exists l ls,
    String_split LF t = l :: ls /\ String_split LF (x :: t) = (x :: l) :: ls.
Proof.
  intros Hx. cbn [String_split]. rewrite Hx.
  destruct (String_split LF t) as [|l ls] eqn:E.
  - exfalso. revert E. apply String_split_nonempty.
  - exists l, ls. split; reflexivity.
Qed.






(** ** The formatter of the command line *)

(** Replacing a one-unit literal, when the replacement text has no [$]
    form. *)
Lemma replace_single (c : N) (repl s : jsstring) :
  (forall m, GetSubstitution repl m = repl) ->
  String_replace_g (literal [c]) repl s = expand c repl s.
Proof.
  intros Hrepl. unfold String_replace_g. generalize (@None N).
  induction s as [|x s IH]; intros prev; [reflexivity|].
  cbn [replace_all]. rewrite match_here_literal_only.
  cbn [startsWith length]. rewrite andb_true_r, N.eqb_sym.
  unfold expand. cbn [flat_map]. fold (expand c repl s).
  destruct (x =? c)%N.
  - rewrite Hrepl, IH. reflexivity.
  - rewrite IH. reflexivity.
Qed.

Lemma match_here_LF_star (prev : option N) (s : jsstring) :
  match_here [Star (Lit LF)] prev s = Some (leading_LF s).
Proof.
  revert prev. induction s as [|x s IH]; intros prev; [reflexivity|].
  cbn [match_here in_class leading_LF] in *.
  destruct (x =? LF)%N; [|reflexivity].
  rewrite (IH (Some x)). reflexivity.
Qed.

Lemma match_here_blank_lines (prev : option N) (s : jsstring) :
  match_here FormatCode.re_blank_lines prev s =
  match s with
  | x :: (y :: s'') =>
      if ((x =? LF) && (y =? LF))%N then Some (2 + leading_LF s'') else None
  | _ => None
  end.
Proof.
  unfold FormatCode.re_blank_lines.
  destruct s as [|x [|y s'']].
  - reflexivity.
  - cbn [match_here in_class]. destruct (x =? LF)%N; reflexivity.
  - change (match_here [One (Lit LF); One (Lit LF); Star (Lit LF)] prev
              (x :: y :: s''))
      with (if (x =? LF)%N
            then option_map S
                   (if (y =? LF)%N
                    then option_map S
                           (match_here [Star (Lit LF)] (Some y) s'')
                    else None)
            else None).
    rewrite match_here_LF_star.
    destruct (x =? LF)%N; destruct (y =? LF)%N; reflexivity.
Qed.

(** Skipping the code units a match covered. *)
Lemma replace_all_skip (r : regex) (repl : jsstring) (s : jsstring) (k : nat) :
  k <= length s ->
  forall prev, exists prev',
    replace_all r repl prev s k = replace_all r repl prev' (skipn k s) 0.
Proof.
  revert k. induction s as [|x s IH]; intros k Hk prev.
  - cbn [length] in Hk. replace k with 0 by lia. exists prev. reflexivity.
  - destruct k as [|k]; [exists prev; reflexivity|].
    cbn [length] in Hk. cbn [replace_all skipn]. apply IH. lia.
Qed.

Lemma leading_LF_le (s : jsstring) : leading_LF s <= length s.
Proof.
  induction s as [|x s IH]; simpl; [lia|]. destruct (x =? LF)%N; lia.
Qed.

Lemma squeeze_LF_cons (x : N) (s : jsstring) :
  squeeze (LF :: x :: s) =
  if (x =? LF)%N then squeeze (x :: s) else LF :: squeeze (x :: s).
Proof. reflexivity. Qed.

Lemma squeeze_cons_other (x : N) (s : jsstring) :
  (x =? LF)%N = false -> squeeze (x :: s) = x :: squeeze s.
Proof. intros H. cbn [squeeze]. rewrite H. reflexivity. Qed.

Lemma squeeze_after_LF (s : jsstring) :
  squeeze (LF :: s) = LF :: squeeze (skipn (leading_LF s) s).
Proof.
  induction s as [|x s IH]; [reflexivity|].
  rewrite squeeze_LF_cons. cbn [leading_LF].
  destruct (x =? LF)%N eqn:Ex; [|reflexivity].
  apply N.eqb_eq in Ex. subst x. cbn [skipn]. exact IH.
Qed.

(** The replacement of blank lines, read as a function. *)
Lemma replace_blank_lines (s : jsstring) :
  String_replace_g FormatCode.re_blank_lines [LF] s = squeeze s.
Proof.
  unfold String_replace_g. generalize (@None N).
  assert (H : forall n s, length s <= n -> forall prev,
            replace_all FormatCode.re_blank_lines [LF] prev s 0 = squeeze s).
  { clear s. induction n as [|n IH]; intros s Hn prev.
    - destruct s; [reflexivity|simpl in Hn; lia].
    - destruct s as [|x s']; [reflexivity|]. cbn [length] in Hn.
      cbn [replace_all]. rewrite match_here_blank_lines.
      destruct s' as [|y s''].
      + cbn [squeeze]. rewrite (IH [] ltac:(simpl; lia)).
        destruct (x =? LF)%N eqn:Ex; [|reflexivity].
        apply N.eqb_eq in Ex. subst x. reflexivity.
      + cbn [length] in Hn.
        destruct (x =? LF)%N eqn:Ex; destruct (y =? LF)%N eqn:Ey; cbn [andb].
        * apply N.eqb_eq in Ex, Ey. subst x y.
          change (2 + leading_LF s'') with (S (leading_LF (LF :: s''))).
          cbn [GetSubstitution app].
          destruct (replace_all_skip FormatCode.re_blank_lines [LF]
                      (LF :: s'') (leading_LF (LF :: s''))
                      (leading_LF_le (LF :: s'')) (Some LF)) as [prev' ->].
          rewrite IH.
          -- symmetry. apply squeeze_after_LF.
          -- rewrite length_skipn. cbn [length]. lia.
        * rewrite IH by (cbn [length]; lia).
          apply N.eqb_eq in Ex. subst x. rewrite squeeze_LF_cons, Ey.
          reflexivity.
        * rewrite IH by (cbn [length]; lia).
          rewrite (squeeze_cons_other x _ Ex). reflexivity.
        * rewrite IH by (cbn [length]; lia).
          rewrite (squeeze_cons_other x _ Ex). reflexivity. }
  intros prev. apply (H (length s)). lia.
Qed.

Lemma squeeze_head (s : jsstring) :
  match s with
  | [] => squeeze s = []
  | x :: _ => exists t, squeeze s = x :: t
  end.
Proof.
  induction s as [|x s IH]; [reflexivity|].
  destruct (x =? LF)%N eqn:Ex.
  - apply N.eqb_eq in Ex. subst x. destruct s as [|y s]; [exists []; reflexivity|].
    rewrite squeeze_LF_cons. destruct (y =? LF)%N eqn:Ey.
    + apply N.eqb_eq in Ey. subst y. exact IH.
    + eexists. reflexivity.
  - rewrite (squeeze_cons_other x s Ex). eexists. reflexivity.
Qed.

(** The squeezed text holds no two adjacent line feeds. *)
Lemma squeeze_no_blank_line (s : jsstring) :
  includes (squeeze s) [LF; LF] = false.
Proof.
  induction s as [|x s IH]; [reflexivity|].
  destruct (x =? LF)%N eqn:Ex.
  - apply N.eqb_eq in Ex. subst x. destruct s as [|y s]; [reflexivity|].
    rewrite squeeze_LF_cons. destruct (y =? LF)%N eqn:Ey; [exact IH|].
    cbn [includes]. rewrite IH, orb_false_r.
    destruct (squeeze_head (y :: s)) as [t ->].
    cbn [startsWith]. rewrite N.eqb_refl, N.eqb_sym, Ey. reflexivity.
  - rewrite (squeeze_cons_other x s Ex). cbn [includes].
    rewrite IH, orb_false_r. cbn [startsWith]. rewrite N.eqb_sym, Ex.
    reflexivity.
Qed.

Lemma startsWith_app (p s w : jsstring) :
  startsWith p s = true -> startsWith p (s ++ w) = true.
Proof.
  revert s. induction p as [|a p IH]; intros [|b s] H; simpl in *;
    try reflexivity; try discriminate.
  apply andb_true_iff in H. destruct H as [-> H]. apply IH, H.
Qed.

Lemma includes_app_r (s w p : jsstring) :
  includes s p = true -> includes (s ++ w) p = true.
Proof.
  induction s as [|x s IH]; intros H.
  - simpl in H. rewrite orb_false_r in H.
    apply startsWith_includes, (startsWith_app p [] w H).
  - cbn [includes] in H. apply orb_true_iff in H. cbn [app includes].
    destruct H as [H|H].
    + change (x :: s ++ w) with ((x :: s) ++ w).
      rewrite (startsWith_app p (x :: s) w H). reflexivity.
    + rewrite (IH H). apply orb_true_r.
Qed.

Lemma includes_app_l (w s p : jsstring) :
  includes s p = true -> includes (w ++ s) p = true.
Proof.
  intros H. induction w as [|x w IH]; [exact H|].
  cbn [app]. apply includes_cons, IH.
Qed.

Lemma String_trim_inside (s : jsstring) :
  exists a b, s = a ++ String_trim s ++ b.
Proof.
  unfold String_trim. destruct (trimStart_suffix s) as [a Ha].
  destruct (trimEnd_prefix (trimStart s)) as [b Hb].
  exists a, b. rewrite <- Hb. exact Ha.
Qed.

Lemma String_trim_no_blank_line (s : jsstring) :
  includes s [LF; LF] = false -> includes (String_trim s) [LF; LF] = false.
Proof.
  intros H. destruct (includes (String_trim s) [LF; LF]) eqn:E; [|reflexivity].
  destruct (String_trim_inside s) as (a & b & Hs).
  rewrite Hs in H. rewrite (includes_app_l a _ _ (includes_app_r _ b _ E)) in H.
  discriminate.
Qed.

Lemma ends_line_skip (c : N) (w v : jsstring) :
  forallb (fun x => negb (x =? c)%N) w = true ->
  ends_line c (w ++ v) = ends_line c v.
Proof.
  induction w as [|x w IH]; intros H; [reflexivity|].
  cbn [forallb] in H. apply andb_true_iff in H. destruct H as [Hx Hw].
  apply negb_true_iff in Hx. cbn [app ends_line]. rewrite Hx. apply IH, Hw.
Qed.

Lemma ends_line_suffix (c : N) (w v : jsstring) :
  ends_line c (w ++ v) = true -> ends_line c v = true.
Proof.
  induction w as [|x w IH]; intros H; [exact H|].
  cbn [app ends_line] in H. apply andb_true_iff in H. apply IH, H.
Qed.

Lemma ends_line_prefix (c : N) (v w : jsstring) :
  ends_line c (v ++ w) = true -> ends_line c v = true.
Proof.
  induction v as [|x v IH]; intros H; [reflexivity|].
  cbn [app ends_line] in *. apply andb_true_iff in H. destruct H as [Hx Hv].
  rewrite (IH Hv), andb_true_r.
  destruct (x =? c)%N; [|reflexivity].
  destruct v as [|y v]; [reflexivity|exact Hx].
Qed.

Lemma ends_line_trim (c : N) (s : jsstring) :
  ends_line c s = true -> ends_line c (String_trim s) = true.
Proof.
  intros H. destruct (String_trim_inside s) as (a & b & Hs).
  rewrite Hs in H. apply ends_line_suffix in H.
  apply ends_line_prefix in H. exact H.
Qed.

Lemma ends_line_squeeze (c : N) (s : jsstring) :
  (c =? LF)%N = false ->
  ends_line c s = true -> ends_line c (squeeze s) = true.
Proof.
  intros Hc. induction s as [|x s IH]; intros H; [reflexivity|].
  cbn [ends_line] in H. apply andb_true_iff in H. destruct H as [Hx Hs].
  specialize (IH Hs). destruct (x =? LF)%N eqn:Ex.
  - apply N.eqb_eq in Ex. subst x. destruct s as [|y s].
    + cbn [squeeze ends_line]. rewrite N.eqb_refl. cbn [ends_line].
      destruct (LF =? c)%N; reflexivity.
    + rewrite squeeze_LF_cons. destruct (y =? LF)%N; [exact IH|].
      cbn [ends_line]. rewrite N.eqb_sym, Hc. exact IH.
  - rewrite (squeeze_cons_other x s Ex). cbn [ends_line].
    rewrite IH, andb_true_r. destruct (x =? c)%N; [|reflexivity].
    destruct s as [|y s]; [reflexivity|].
    destruct (squeeze_head (y :: s)) as [t ->]. exact Hx.
Qed.

(** A replacement that neither touches nor produces [c], and leaves line
    feeds alone, keeps every [c] at the end of its line. *)
Lemma ends_line_expand_other (c d : N) (repl s : jsstring) :
  (c =? d)%N = false -> (LF =? d)%N = false ->
  forallb (fun x => negb (x =? c)%N) repl = true ->
  ends_line c s = true -> ends_line c (expand d repl s) = true.
Proof.
  intros Hcd Hd Hrepl. induction s as [|x s IH]; intros H; [reflexivity|].
  cbn [ends_line] in H. apply andb_true_iff in H. destruct H as [Hx Hs].
  specialize (IH Hs). unfold expand in *. cbn [flat_map].
  destruct (x =? d)%N eqn:Exd.
  - rewrite (ends_line_skip c repl _ Hrepl). exact IH.
  - cbn [app ends_line]. rewrite IH, andb_true_r.
    destruct (x =? c)%N eqn:Exc; [|reflexivity].
    destruct s as [|y s]; [reflexivity|].
    apply N.eqb_eq in Hx. subst y. cbn [flat_map]. rewrite Hd.
    reflexivity.
Qed.

(** A replacement of [c] by a text whose only [c] stands right before a
    line feed puts every [c] at the end of its line. *)
Lemma ends_line_expand_self (c : N) (before after s : jsstring) :
  (c =? LF)%N = false ->
  forallb (fun x => negb (x =? c)%N) before = true ->
  forallb (fun x => negb (x =? c)%N) after = true ->
  ends_line c (expand c (before ++ c :: LF :: after) s) = true.
Proof.
  intros Hc Hb Ha. induction s as [|x s IH]; [reflexivity|].
  unfold expand in *. cbn [flat_map]. destruct (x =? c)%N eqn:Ex.
  - rewrite <- app_assoc, (ends_line_skip c before _ Hb).
    cbn [app ends_line]. rewrite !N.eqb_refl. cbn [andb].
    rewrite N.eqb_sym, Hc. cbn [andb].
    rewrite (ends_line_skip c after _ Ha). exact IH.
  - cbn [app ends_line]. rewrite Ex. exact IH.
Qed.

Lemma ends_line_lines (c : N) (s : jsstring) :
  (c =? LF)%N = false -> ends_line c s = true ->
  Forall (fun l => only_last c l = true) (String_split LF s).
Proof.
  intros Hc. induction s as [|x s IH]; intros H; [repeat constructor|].
  cbn [ends_line] in H. apply andb_true_iff in H. destruct H as [Hx Hs].
  specialize (IH Hs). destruct (x =? LF)%N eqn:Ex.
  - cbn [String_split]. rewrite Ex. constructor; [reflexivity|exact IH].
  - destruct (String_split_cons x s Ex) as (l & ls & El & ->).
    rewrite El in IH. inversion IH as [|? ? Hl Hls]; subst.
    constructor; [|exact Hls].
    destruct l as [|a l]; [reflexivity|].
    unfold only_last in *. cbn [removelast existsb] in *.
    apply negb_true_iff in Hl. rewrite Hl, orb_false_r.
    destruct (c =? x)%N eqn:Ecx; [|reflexivity].
    rewrite N.eqb_sym, Ecx in Hx.
    destruct s as [|y s]; [discriminate El|].
    cbn [String_split] in El. rewrite Hx in El. discriminate El.
Qed.

(** The last five steps of the command-line formatter, read as functions,
    after the six replacements with groups. *)
Lemma format_tail (now : string) (code : jsstring) (language : option jsstring) :
  exists t,
    FormatCode.formatted (FormatCode.formatCode now code language)
    = String_trim
        (squeeze
           (expand (chr ";") (js ";" ++ [LF])
              (expand (chr "}") (LF :: js "}")
                 (expand (chr "{") (js " {" ++ LF :: js "  ") t)))).
Proof.
  unfold FormatCode.formatCode. cbn [FormatCode.formatted].
  rewrite replace_blank_lines.
  rewrite (replace_single (chr ";") (js ";" ++ [LF])) by reflexivity.
  rewrite (replace_single (chr "}") (LF :: js "}")) by reflexivity.
  rewrite (replace_single (chr "{") (js " {" ++ LF :: js "  ")) by reflexivity.
  eexists. reflexivity.
Qed.

(** The text the command-line formatter returns has no white space at
    either end and holds no two adjacent line feeds: whatever the input,
    the formatted text has no empty line. *)
Theorem format_leaves_no_blank_line (now : string) (code : jsstring)
  (language : option jsstring) :
  let text := FormatCode.formatted (FormatCode.formatCode now code language) in
  trimmed text /\ includes text [LF; LF] = false.
Proof.
  cbv zeta. destruct (format_tail now code language) as [t ->]. split.
  - apply String_trim_trimmed.
  - apply String_trim_no_blank_line, squeeze_no_blank_line.
Qed.

(** In the text the command-line formatter returns, a semicolon or an
    opening brace is always the last code unit of its line. *)
Theorem format_breaks_after_semicolon_and_brace (now : string)
  (code : jsstring) (language : option jsstring) :
  Forall (fun l => only_last (chr ";") l = true /\ only_last (chr "{") l = true)
    (String_split LF
       (FormatCode.formatted (FormatCode.formatCode now code language))).
Proof.
  destruct (format_tail now code language) as [t ->].
  apply Forall_and.
  - apply ends_line_lines; [reflexivity|].
    apply ends_line_trim, ends_line_squeeze; [reflexivity|].
    apply (ends_line_expand_self (chr ";") [] []); reflexivity.
  - apply ends_line_lines; [reflexivity|].
    apply ends_line_trim, ends_line_squeeze; [reflexivity|].
    apply ends_line_expand_other; try reflexivity.
    apply ends_line_expand_other; try reflexivity.
    apply (ends_line_expand_self (chr "{") (js " ") (js "  ")); reflexivity.
Qed.

Lemma starts_line_weaken (c : N) (b : bool) (s : jsstring) :
  starts_line_from c false s = true -> starts_line_from c b s = true.
Proof.
  destruct s as [|x s]; [reflexivity|]. cbn [starts_line_from].
  destruct (x =? c)%N; [discriminate|]. intros H. exact H.
Qed.

Lemma starts_line_true (c : N) (b : bool) (s : jsstring) :
  starts_line_from c b s = true -> starts_line_from c true s = true.
Proof.
  destruct s as [|x s]; [reflexivity|]. cbn [starts_line_from].
  destruct (x =? c)%N; [|intros H; exact H].
  intros H. apply andb_true_iff in H. destruct H as [_ H]. exact H.
Qed.

Lemma starts_line_skip (c : N) (b : bool) (w v : jsstring) :
  forallb (fun x => negb (x =? c)%N) w = true ->
  starts_line_from c false v = true ->
  starts_line_from c b (w ++ v) = true.
Proof.
  revert b. induction w as [|x w IH]; intros b Hw Hv.
  - apply starts_line_weaken, Hv.
  - cbn [forallb] in Hw. apply andb_true_iff in Hw. destruct Hw as [Hx Hw].
    apply negb_true_iff in Hx. cbn [app starts_line_from]. rewrite Hx.
    apply IH; assumption.
Qed.

Lemma starts_line_suffix (c : N) (b : bool) (w v : jsstring) :
  starts_line_from c b (w ++ v) = true -> starts_line_from c true v = true.
Proof.
  revert b. induction w as [|x w IH]; intros b H.
  - apply (starts_line_true c b), H.
  - cbn [app starts_line_from] in H. apply andb_true_iff in H.
    apply (IH _ (proj2 H)).
Qed.

Lemma starts_line_prefix (c : N) (b : bool) (v w : jsstring) :
  starts_line_from c b (v ++ w) = true -> starts_line_from c b v = true.
Proof.
  revert b. induction v as [|x v IH]; intros b H; [reflexivity|].
  cbn [app starts_line_from] in *. apply andb_true_iff in H.
  destruct H as [-> H]. apply (IH _ H).
Qed.

Lemma starts_line_trim (c : N) (s : jsstring) :
  starts_line_from c true s = true ->
  starts_line_from c true (String_trim s) = true.
Proof.
  intros H. destruct (String_trim_inside s) as (a & b & Hs).
  rewrite Hs in H. apply starts_line_suffix in H.
  apply starts_line_prefix in H. exact H.
Qed.

Lemma starts_line_squeeze (c : N) (b : bool) (s : jsstring) :
  (c =? LF)%N = false ->
  starts_line_from c b s = true -> starts_line_from c b (squeeze s) = true.
Proof.
  intros Hc. assert (Hc' : (LF =? c)%N = false) by (rewrite N.eqb_sym; exact Hc).
  revert b. induction s as [|x s IH]; intros b H; [reflexivity|].
  cbn [starts_line_from] in H. apply andb_true_iff in H. destruct H as [Hx Hs].
  destruct (x =? LF)%N eqn:Ex.
  - apply N.eqb_eq in Ex. subst x. destruct s as [|y s].
    + cbn [squeeze starts_line_from]. rewrite N.eqb_refl.
      cbn [starts_line_from]. rewrite Hc'. reflexivity.
    + rewrite squeeze_LF_cons. destruct (y =? LF)%N eqn:Ey.
      * specialize (IH true Hs). apply N.eqb_eq in Ey. subst y.
        destruct (squeeze_head (LF :: s)) as [t Et]. rewrite Et in *.
        cbn [starts_line_from] in *. rewrite Hc' in *. exact IH.
      * cbn [starts_line_from]. rewrite Hc', N.eqb_refl. apply IH, Hs.
  - rewrite (squeeze_cons_other x s Ex). cbn [starts_line_from].
    rewrite Hx, Ex. apply IH, Hs.
Qed.

Lemma starts_line_expand_other (c d : N) (repl s : jsstring) (b : bool) :
  (LF =? d)%N = false ->
  forallb (fun x => negb (x =? c)%N) repl = true ->
  starts_line_from c b s = true ->
  starts_line_from c b (expand d repl s) = true.
Proof.
  intros Hd Hrepl. revert b. induction s as [|x s IH]; intros b H;
    [reflexivity|].
  cbn [starts_line_from] in H. apply andb_true_iff in H. destruct H as [Hx Hs].
  unfold expand in *. cbn [flat_map]. destruct (x =? d)%N eqn:Exd.
  - apply starts_line_skip; [exact Hrepl|]. apply IH.
    apply N.eqb_eq in Exd. subst x. rewrite N.eqb_sym, Hd in Hs. exact Hs.
  - cbn [app starts_line_from]. rewrite Hx. apply IH, Hs.
Qed.

Lemma starts_line_expand_self (c : N) (s : jsstring) (b : bool) :
  (c =? LF)%N = false ->
  starts_line_from c b (expand c [LF; c] s) = true.
Proof.
  intros Hc. revert b. induction s as [|x s IH]; intros b; [reflexivity|].
  unfold expand in *. cbn [flat_map]. destruct (x =? c)%N eqn:Ex.
  - cbn [app starts_line_from]. rewrite !N.eqb_refl, (N.eqb_sym LF c), Hc.
    cbn [andb]. apply IH.
  - cbn [app starts_line_from]. rewrite Ex. apply IH.
Qed.

Lemma starts_line_lines (c : N) (b : bool) (s : jsstring) :
  (c =? LF)%N = false -> starts_line_from c b s = true ->
  exists l ls,
    String_split LF s = l :: ls /\
    (if b then only_first c l = true else existsb (N.eqb c) l = false) /\
    Forall (fun l => only_first c l = true) ls.
Proof.
  intros Hc. revert b. induction s as [|x s IH]; intros b H.
  - exists [], []. split; [reflexivity|]. split; [destruct b; reflexivity|].
    constructor.
  - cbn [starts_line_from] in H. apply andb_true_iff in H.
    destruct H as [Hx Hs]. destruct (x =? LF)%N eqn:Ex.
    + destruct (IH true Hs) as (l & ls & El & Hl & Hls).
      exists [], (l :: ls). cbn [String_split]. rewrite Ex, El.
      split; [reflexivity|]. split; [destruct b; reflexivity|].
      constructor; assumption.
    + destruct (IH false Hs) as (l & ls & El & Hl & Hls).
      destruct (String_split_cons x s Ex) as (l' & ls' & El' & ->).
      rewrite El in El'. injection El' as <- <-.
      exists (x :: l), ls. split; [reflexivity|]. split; [|exact Hls].
      destruct b.
      * unfold only_first. cbn [tl]. rewrite Hl. reflexivity.
      * cbn [existsb]. rewrite Hl, orb_false_r, N.eqb_sym.
        destruct (x =? c)%N; [discriminate|reflexivity].
Qed.

(** In the text the command-line formatter returns, a closing brace is
    always the first code unit of its line. *)
Theorem format_breaks_before_closing_brace (now : string) (code : jsstring)
  (language : option jsstring) :
  Forall (fun l => only_first (chr "}") l = true)
    (String_split LF
       (FormatCode.formatted (FormatCode.formatCode now code language))).
Proof.
  destruct (format_tail now code language) as [t ->].
  destruct (starts_line_lines (chr "}") true
              (String_trim
                 (squeeze
                    (expand (chr ";") (js ";" ++ [LF])
                       (expand (chr "}") (LF :: js "}")
                          (expand (chr "{") (js " {" ++ LF :: js "  ") t))))))
    as (l & ls & -> & Hl & Hls); [reflexivity| |constructor; assumption].
  apply starts_line_trim, starts_line_squeeze; [reflexivity|].
  apply starts_line_expand_other; try reflexivity.
  apply (starts_line_expand_self (chr "}")). reflexivity.
Qed.

Example format_test_code :
  FormatCode.formatted (FormatCode.formatCode sample_now FORMATTED_CODE None)
  = js "function   badly_formatted() {" ++ LF :: js "  return 1" ++ LF :: js "}"
  /\ FormatCode.stats (FormatCode.formatCode sample_now FORMATTED_CODE None)
     = {| FormatCode.original_length := 38;
          FormatCode.formatted_length := 43;
          FormatCode.difference := 5;
          FormatCode.lines_before := 1;
          FormatCode.lines_after := 3 |}.
Proof. split; vm_compute; reflexivity. Qed.

Example format_statements :
  FormatCode.formatted
    (FormatCode.formatCode sample_now (js "const x=1;const y=2;") None)
  = two_lines "const x = 1;" "const y = 2;" /\
  FormatCode.formatted
    (FormatCode.formatCode sample_now (two_lines "let a=b+c  " "  foo(a-1)") None)
  = two_lines "let a = b + c;" "  foo(a - 1);" /\
  FormatCode.formatted
    (FormatCode.formatCode sample_now (js "a=b=c ab12+cd+ef") None)
  = js "a = b=c ab12 + cd+ef;".
Proof. repeat split; vm_compute; reflexivity. Qed.

Example service_format_lines :
  CodeProcessorFormat.formatted
    (CodeProcessorFormat.formatCode
       (js "  a" ++ LF :: js "b;" ++ LF :: js "c {" ++ LF :: js "d  "
          ++ LF :: js "e ")
       CodeProcessorFormat.Undefined)
  = js "a;" ++ LF :: js "b;" ++ LF :: js "c {" ++ LF :: js "d  "
      ++ LF :: js "e;".
Proof. vm_compute. reflexivity. Qed.

(** ** The pattern of any keyword *)

Lemma match_here_word_star_end (prev : option N) (s : jsstring) :
  match_here [Star ClsWord; InputEnd] prev s =
  if forallb is_word s then Some (length s) else None.
Proof.
  revert prev. induction s as [|x s IH]; intros prev; [reflexivity|].
  cbn [match_here in_class forallb length] in *.
  destruct (is_word x); [|reflexivity].
  rewrite (IH (Some x)). cbn [andb]. destruct (forallb is_word s); reflexivity.
Qed.

(** [keyword.match(/^\w+$/)] holds for the non-empty texts made of word
    characters. *)
Lemma identifier_test (kw : jsstring) :
  truthy (String_match re_identifier kw) =
  match kw with
  | [] => false
  | _ :: _ => forallb is_word kw
  end.
Proof.
  unfold String_match.
  assert (Hlater : forall (s : jsstring) (p : N),
             search re_identifier (Some p) s = None).
  { induction s as [|x s IH]; intros p; [reflexivity|].
    cbn [search re_identifier match_here]. rewrite IH. reflexivity. }
  destruct kw as [|x kw]; [reflexivity|].
  cbn [search].
  change (match_here re_identifier None (x :: kw))
    with (if is_word x
          then option_map S (match_here [Star ClsWord; InputEnd] (Some x) kw)
          else None).
  rewrite match_here_word_star_end, Hlater. cbn [forallb].
  destruct (is_word x); [|reflexivity].
  destruct (forallb is_word kw); reflexivity.
Qed.

Lemma step_plain (out : list node) (x : N) :
  existsb (N.eqb x) (js ".*+?^${}()|[]\") = false ->
  RegExp_step (out, PNormal) x = Some (One (Lit x) :: out, PNormal).
Proof.
  intros H. cbn [js list_ascii_of_string map existsb] in H.
  repeat (apply orb_false_iff in H; destruct H as [? H]).
  unfold RegExp_step, chr.
  repeat match goal with
         | E : (x =? ?c)%N = false |- context [(x =? ?d)%N] =>
             change d with c; rewrite E
         end.
  reflexivity.
Qed.

Lemma step_escaped (out : list node) (x : N) :
  existsb (N.eqb x) (js ".*+?^${}()|[]\") = true ->
  RegExp_step (out, PEscape) x = Some (One (Lit x) :: out, PNormal).
Proof.
  intros H. cbn [js list_ascii_of_string map existsb] in H.
  repeat (apply orb_true_iff in H; destruct H as [H|H]);
    try discriminate; apply N.eqb_eq in H; subst x; reflexivity.
Qed.

(** The escaping step puts a backslash before every metacharacter. *)
Lemma escape_keyword (kw : jsstring) :
  String_replace_g re_metachar (js "\$&") kw
  = flat_map (fun x =>
                if existsb (N.eqb x) (js ".*+?^${}()|[]\")
                then [chr "\"; x] else [x]) kw.
Proof.
  unfold String_replace_g. generalize (@None N).
  induction kw as [|x kw IH]; intros prev; [reflexivity|].
  cbn [replace_all flat_map]. unfold re_metachar at 1.
  cbn [match_here in_class].
  destruct (existsb (N.eqb x) (js ".*+?^${}()|[]\")).
  - cbn [option_map]. rewrite IH. reflexivity.
  - rewrite IH. reflexivity.
Qed.

(** The constructor reads an escaped text back as the literal text. *)
Lemma read_escaped (kw rest : jsstring) (out : list node) :
  RegExp_read (out, PNormal)
    (flat_map (fun x =>
                 if existsb (N.eqb x) (js ".*+?^${}()|[]\")
                 then [chr "\"; x] else [x]) kw ++ rest)
  = RegExp_read (rev (literal kw) ++ out, PNormal) rest.
Proof.
  revert out. induction kw as [|x kw IH]; intros out; [reflexivity|].
  cbn [flat_map]. rewrite <- app_assoc.
  destruct (existsb (N.eqb x) (js ".*+?^${}()|[]\")) eqn:E.
  - cbn [app RegExp_read].
    change (RegExp_step (out, PNormal) (chr "\")) with (Some (out, PEscape)).
    cbn [RegExp_read]. rewrite (step_escaped out x E), IH.
    unfold literal. cbn [map rev]. rewrite <- app_assoc. reflexivity.
  - cbn [app RegExp_read]. rewrite (step_plain out x E), IH.
    unfold literal. cbn [map rev]. rewrite <- app_assoc. reflexivity.
Qed.

Lemma read_boundary_first (rest : jsstring) (out : list node) :
  RegExp_read (out, PNormal) (chr "\" :: chr "b" :: rest)
  = RegExp_read (WordBoundary :: out, PNormal) rest.
Proof. reflexivity. Qed.

Lemma read_boundary_last (out : list node) :
  RegExp_read (out, PNormal) (js "\b") = Some (WordBoundary :: out, PNormal).
Proof. reflexivity. Qed.

(** The pattern built for any keyword, not only the seven of the table: a
    non-empty keyword made of word characters gives the keyword between two
    word boundaries; any other keyword, whatever metacharacters it holds,
    gives a pattern that matches the keyword text literally.  The
    constructor never rejects the escaped text. *)
Theorem keywordPattern_any (keyword : jsstring) :
  AnalyzeCode.keywordPattern keyword
  = Some (match keyword with
          | [] => []
          | _ :: _ =>
              if forallb is_word keyword then word_regex keyword
              else literal keyword
          end).
Proof.
  unfold AnalyzeCode.keywordPattern.
  rewrite identifier_test, escape_keyword. unfold RegExp.
  destruct keyword as [|x kw]; [reflexivity|].
  destruct (forallb is_word (x :: kw)).
  - change (js "\b" ++ ?e ++ js "\b") with (chr "\" :: chr "b" :: e ++ js "\b").
    rewrite (read_boundary_first _ []), read_escaped, read_boundary_last.
    unfold word_regex. cbn [rev]. rewrite rev_app_distr, rev_involutive.
    reflexivity.
  - rewrite <- (app_nil_r (flat_map _ (x :: kw))), read_escaped.
    cbn [RegExp_read]. rewrite app_nil_r, rev_involutive. reflexivity.
Qed.

(** ** Words *)

Lemma match_here_space_star (prev : option N) (s : jsstring) :
  match_here [Star ClsSpace] prev s = Some (leading_spaces s).
Proof.
  revert prev. induction s as [|x s IH]; intros prev; [reflexivity|].
  cbn [match_here in_class leading_spaces] in *.
  destruct (is_space x); [|reflexivity].
  rewrite (IH (Some x)). reflexivity.
Qed.

Lemma match_here_spaces (prev : option N) (s : jsstring) :
  match_here re_spaces prev s =
  match s with
  | [] => None
  | x :: s' => if is_space x then Some (S (leading_spaces s')) else None
  end.
Proof.
  destruct s as [|x s']; [reflexivity|].
  change (match_here re_spaces prev (x :: s'))
    with (if is_space x
          then option_map S (match_here [Star ClsSpace] (Some x) s')
          else None).
  rewrite match_here_space_star. reflexivity.
Qed.

Lemma split_all_skip (r : regex) (s : jsstring) (k : nat) (cur : jsstring) :
  k <= length s ->
  forall prev, exists prev',
    split_all r prev s k cur = split_all r prev' (skipn k s) 0 cur.
Proof.
  revert k. induction s as [|x s IH]; intros k Hk prev.
  - cbn [length] in Hk. replace k with 0 by lia. exists prev. reflexivity.
  - destruct k as [|k]; [exists prev; reflexivity|].
    cbn [length] in Hk. cbn [split_all skipn]. apply IH. lia.
Qed.

Lemma leading_spaces_le (s : jsstring) : leading_spaces s <= length s.
Proof.
  induction s as [|x s IH]; simpl; [lia|]. destruct (is_space x); lia.
Qed.

Lemma count_runs_skip_spaces (s : jsstring) :
  count_runs false (skipn (leading_spaces s) s) = count_runs false s.
Proof.
  induction s as [|x s IH]; [reflexivity|].
  cbn [leading_spaces count_runs]. destruct (is_space x) eqn:E.
  - cbn [skipn]. exact IH.
  - cbn [skipn count_runs]. rewrite E. reflexivity.
Qed.

Lemma count_runs_le (b : bool) (s : jsstring) : count_runs b s <= length s.
Proof.
  revert b. induction s as [|x s IH]; intros b; simpl; [lia|].
  destruct (is_space x).
  - specialize (IH false). lia.
  - specialize (IH true). destruct b; lia.
Qed.

Lemma split_spaces_count (s : jsstring) :
  forall prev cur,
    length (filter (fun w => negb (length w =? 0))
              (split_all re_spaces prev s 0 cur))
    = (if length cur =? 0 then 0 else 1)
      + count_runs (negb (length cur =? 0)) s.
Proof.
  assert (H : forall n s, length s <= n -> forall prev cur,
            length (filter (fun w => negb (length w =? 0))
                      (split_all re_spaces prev s 0 cur))
            = (if length cur =? 0 then 0 else 1)
              + count_runs (negb (length cur =? 0)) s).
  { clear s. induction n as [|n IH]; intros s Hn prev cur.
    - destruct s; [|simpl in Hn; lia].
      cbn [split_all filter count_runs]. rewrite length_rev.
      destruct (length cur =? 0); reflexivity.
    - destruct s as [|x s'].
      + cbn [split_all filter count_runs]. rewrite length_rev.
        destruct (length cur =? 0); reflexivity.
      + cbn [length] in Hn. cbn [split_all count_runs].
        rewrite match_here_spaces. destruct (is_space x).
        * cbn [filter]. rewrite length_rev.
          destruct (split_all_skip re_spaces s' (leading_spaces s') []
                      (leading_spaces_le s') (Some x)) as [prev' ->].
          assert (Hlen : length (skipn (leading_spaces s') s') <= n)
            by (rewrite length_skipn; lia).
          pose proof (IH _ Hlen prev' []) as E. cbn [length Nat.eqb negb] in E.
          rewrite count_runs_skip_spaces in E.
          destruct (length cur =? 0); cbn [negb length]; rewrite E; reflexivity.
        * rewrite (IH s' ltac:(lia) (Some x) (x :: cur)).
          cbn [length Nat.eqb negb].
          destruct (length cur =? 0); reflexivity. }
  intros prev cur. apply (H (length s)). lia.
Qed.

(** [words] counts the maximal runs of code units that are not white
    space: white space at the ends of the text or repeated between two
    words adds nothing, and there are never more words than characters. *)
Theorem words_are_runs (now : string) (code : jsstring)
  (language : option jsstring) :
  exists report,
    AnalyzeCode.analyzeCode now code language = Some report /\
    AnalyzeCode.words (AnalyzeCode.metrics report) = count_runs false code /\
    AnalyzeCode.words (AnalyzeCode.metrics report)
    <= AnalyzeCode.characters (AnalyzeCode.metrics report).
Proof.
  unfold AnalyzeCode.analyzeCode.
  rewrite cli_calculateComplexity_eq. cbn [bind].
  eexists. split; [reflexivity|].
  cbn [AnalyzeCode.metrics AnalyzeCode.words AnalyzeCode.characters].
  assert (E : length (filter (fun w => negb (length w =? 0))
                        (String_split_re re_spaces code))
              = count_runs false code).
  { unfold String_split_re. destruct code as [|x code]; [reflexivity|].
    rewrite split_spaces_count. reflexivity. }
  rewrite E. split; [reflexivity|apply count_runs_le].
Qed.

(** ** The shape of an [innerHTML] assignment *)

Lemma match_here_star_cons (k : cclass) (r : regex) (prev : option N) (x : N)
  (s : jsstring) :
  match_here (Star k :: r) prev (x :: s) =
  if in_class k x then
    match match_here (Star k :: r) (Some x) s with
    | Some n => Some (S n)
    | None => match_here r prev (x :: s)
    end
  else match_here r prev (x :: s).
Proof. reflexivity. Qed.

Lemma spaces_then_equal (prev : option N) (t : jsstring) :
  match_here [Star ClsSpace; One (Lit (chr "="))] prev t <> None <->
  exists ws post, t = ws ++ chr "=" :: post /\ forallb is_space ws = true.
Proof.
  split.
  - revert prev. induction t as [|x t IH]; intros prev H.
    + exfalso. apply H. reflexivity.
    + rewrite match_here_star_cons in H. cbn [in_class] in H.
      assert (Hhere : match_here [One (Lit (chr "="))] prev (x :: t) <> None ->
                      exists ws post,
                        x :: t = ws ++ chr "=" :: post /\
                        forallb is_space ws = true).
      { cbn [match_here in_class]. destruct (x =? chr "=")%N eqn:E.
        - intros _. apply N.eqb_eq in E. subst x.
          exists [], t. split; reflexivity.
        - intros C. exfalso. apply C. reflexivity. }
      destruct (is_space x) eqn:Ex; [|apply Hhere, H].
      destruct (match_here [Star ClsSpace; One (Lit (chr "="))] (Some x) t)
        eqn:Et; [|apply Hhere, H].
      destruct (IH (Some x)) as (ws & post & -> & Hws);
        [rewrite Et; discriminate|].
      exists (x :: ws), post. split; [reflexivity|].
      cbn [forallb]. rewrite Ex. exact Hws.
  - intros (ws & post & -> & Hws). revert prev.
    induction ws as [|x ws IH]; intros prev.
    + cbn [app]. rewrite match_here_star_cons.
      change (in_class ClsSpace (chr "=")) with false.
      cbn [match_here in_class]. rewrite N.eqb_refl. discriminate.
    + cbn [forallb] in Hws. apply andb_true_iff in Hws.
      destruct Hws as [Hx Hws]. cbn [app].
      rewrite match_here_star_cons. cbn [in_class]. rewrite Hx.
      specialize (IH Hws (Some x)).
      destruct (match_here [Star ClsSpace; One (Lit (chr "="))] (Some x)
                  (ws ++ chr "=" :: post)); [discriminate|contradiction].
Qed.

Lemma startsWith_self (p r : jsstring) : startsWith p (p ++ r) = true.
Proof.
  induction p as [|a p IH]; [reflexivity|].
  cbn [app startsWith]. rewrite N.eqb_refl. exact IH.
Qed.

Lemma startsWith_split (p s : jsstring) :
  startsWith p s = true -> s = p ++ skipn (length p) s.
Proof.
  intros H. pose proof (firstn_skipn (length p) s) as E.
  rewrite (startsWith_firstn p s H) in E. symmetry. exact E.
Qed.

Lemma innerHTML_here (prev : option N) (t : jsstring) :
  match_here re_innerHTML_assign prev t <> None <->
  exists ws post,
    t = js "innerHTML" ++ ws ++ chr "=" :: post /\ forallb is_space ws = true.
Proof.
  unfold re_innerHTML_assign. rewrite match_here_literal. split.
  - destruct (startsWith (js "innerHTML") t) eqn:Es; [|intros C; contradiction].
    intros H.
    destruct (proj1 (spaces_then_equal
                       (last (map Some (js "innerHTML")) prev)
                       (skipn (length (js "innerHTML")) t)))
      as (ws & post & E & Hws).
    { intros C. rewrite C in H. apply H. reflexivity. }
    exists ws, post. split; [|exact Hws].
    rewrite <- E. apply startsWith_split, Es.
  - intros (ws & post & -> & Hws). rewrite startsWith_self.
    rewrite skipn_app, skipn_all, Nat.sub_diag. cbn [skipn app].
    pose proof (proj2 (spaces_then_equal
                         (last (map Some (js "innerHTML")) prev)
                         (ws ++ chr "=" :: post))) as H.
    destruct (match_here [Star ClsSpace; One (Lit (chr "="))] _ _);
      [discriminate|].
    exfalso. apply H; [|reflexivity]. exists ws, post. split; [reflexivity|exact Hws].
Qed.

Lemma search_somewhere (r : regex) (prev : option N) (s : jsstring) :
  search r prev s <> None ->
  exists pre t p, s = pre ++ t /\ match_here r p t <> None.
Proof.
  revert prev. induction s as [|x s IH]; intros prev H.
  - cbn [search] in H. exists [], [], prev. split; [reflexivity|].
    destruct (match_here r prev []); [discriminate|contradiction].
  - cbn [search] in H. destruct (match_here r prev (x :: s)) eqn:E.
    + exists [], (x :: s), prev. split; [reflexivity|]. rewrite E. discriminate.
    + destruct (IH (Some x)) as (pre & t & p & -> & Ht).
      { destruct (search r (Some x) s) as [[i n]|]; [discriminate|contradiction]. }
      exists (x :: pre), t, p. split; [reflexivity|exact Ht].
Qed.

(** The [innerHTML] rule fires exactly on the texts that hold [innerHTML],
    then any white space, line feeds included, then an equal sign: an
    assignment, but a comparison [innerHTML == x] or an [innerHTML] whose
    equal sign opens the next line as well. *)
Theorem innerHTML_rule_shape (code : jsstring) :
  truthy (String_match re_innerHTML_assign code) = true <->
  exists pre ws post,
    code = pre ++ js "innerHTML" ++ ws ++ chr "=" :: post /\
    forallb is_space ws = true.
Proof.
  rewrite truthy_String_match. split.
  - intros H. destruct (search_somewhere _ _ _ H) as (pre & t & p & -> & Ht).
    apply innerHTML_here in Ht. destruct Ht as (ws & post & -> & Hws).
    exists pre, ws, post. split; [reflexivity|exact Hws].
  - intros (pre & ws & post & -> & Hws).
    assert (Ht : forall p, match_here re_innerHTML_assign p
                             (js "innerHTML" ++ ws ++ chr "=" :: post) <> None).
    { intros p. apply innerHTML_here. exists ws, post.
      split; [reflexivity|exact Hws]. }
    generalize (@None N). induction pre as [|x pre IH]; intros p.
    + apply search_here, Ht.
    + cbn [app]. apply search_cons, IH.
Qed.
